(** * textual-invmgr: product search and cart/checkout consistency

    A shallow embedding of [src/db/crud.py] (the search functions, the cart
    ledger and checkout) and the proofs of its specified behaviour.

    Modelling conventions.
    - A table is the list of its rows, in insertion order.  The schema file
      ([prj-tables.sql]) is not part of the sources: the tables carry no
      integrity constraint in the model, and the primary key of [products]
      is a hypothesis ([pk_products]) where a statement needs it.
    - Python [int] is [Z]; identifiers, quantities and timestamps are [Z],
      and the 64-bit range of a stored INTEGER is not modelled.  A price is
      only ever copied by the modelled functions and is a [Q].
    - Text is a list of ASCII characters; text outside ASCII is outside the
      model.  [str.strip], [str.lower], [str.split], [str.isdigit] and [int]
      are modelled on ASCII text, and so are SQLite's [LOWER] and [LIKE].
    - A function body runs inside [connect]: statements act on the working
      copy of the database, [commit] persists it, and leaving the block
      closes the connection, which drops whatever was not committed.
    - [random.randint] is an explicit list of draws. *)

From Stdlib Require Import ZArith List Bool Ascii String Lia.
From Stdlib Require Import Sorted Permutation QArith.
Import ListNotations.

Local Open Scope Z_scope.

(* ================================================================== *)
(** ** Text: the string operations the source relies on *)

Definition text := list ascii.

(** A literal, for examples. *)
Definition str (s : string) : text := list_ascii_of_string s.

Fixpoint text_eqb (a b : text) : bool :=
  match a, b with
  | [], [] => true
  | x :: a', y :: b' => Ascii.eqb x y && text_eqb a' b'
  | _, _ => false
  end.














(** [p in t] for strings: [p] occurs in [t] as a contiguous run. *)
Fixpoint starts_with (p t : text) : bool :=
  match p, t with
  | [], _ => true
  | _ :: _, [] => false
  | a :: p', b :: t' => Ascii.eqb a b && starts_with p' t'
  end.

Fixpoint contains (p t : text) : bool :=
  starts_with p t || match t with [] => false | _ :: t' => contains p t' end.







(* ================================================================== *)
(** ** Tables ([db/models.py]) *)

Record Product := mkProduct {
  pid : Z;
  name : text;
  category : text;
  price : Q;
  stock_count : Z;
  descr : text
}.

Record CartRow := mkCartRow {
  cart_cid : Z;
  cart_sessionNo : Z;
  cart_pid : Z;
  cart_qty : Z
}.

(** What [list_cart] returns. *)
Record CartItem := mkCartItem {
  item_cid : Z;
  item_sessionNo : Z;
  item_pid : Z;
  item_qty : Z
}.

Record Order := mkOrder {
  ono : Z;
  order_cid : Z;
  order_sessionNo : Z;
  odate : Z;
  shipping_address : text
}.

Record OrderLine := mkOrderLine {
  line_ono : Z;
  lineNo : Z;
  line_pid : Z;
  qty : Z;
  uprice : Q
}.

Record Search := mkSearch {
  search_cid : Z;
  search_sessionNo : Z;
  ts : Z;
  query : text
}.

Record DB := mkDB {
  products : list Product;
  cart : list CartRow;
  orders : list Order;
  orderlines : list OrderLine;
  search : list Search
}.

Definition set_products (f : list Product -> list Product) (db : DB) : DB :=
  mkDB (f (products db)) (cart db) (orders db) (orderlines db) (search db).
Definition set_cart (f : list CartRow -> list CartRow) (db : DB) : DB :=
  mkDB (products db) (f (cart db)) (orders db) (orderlines db) (search db).
Definition set_orders (f : list Order -> list Order) (db : DB) : DB :=
  mkDB (products db) (cart db) (f (orders db)) (orderlines db) (search db).
Definition set_orderlines (f : list OrderLine -> list OrderLine) (db : DB) : DB :=
  mkDB (products db) (cart db) (orders db) (f (orderlines db)) (search db).

(** [products.pid] is the table's key. *)
Definition pk_products (db : DB) : Prop := NoDup (map pid (products db)).

(* ================================================================== *)
(** ** Connections: a small state-and-exception monad *)

Inductive exn := ValueError (msg : string).

Inductive outcome (A : Type) :=
| Return (a : A)
| Raise (e : exn).
Arguments Return {A} a.
Arguments Raise {A} e.

(** An open connection: what is persisted and what this connection sees. *)
Record Conn := mkConn { committed : DB; working : DB }.

Definition M (A : Type) := Conn -> outcome A * Conn.

Definition ret {A} (a : A) : M A := fun c => (Return a, c).

Definition bind {A B} (m : M A) (k : A -> M B) : M B :=
  fun c => match m c with
           | (Return a, c') => k a c'
           | (Raise e, c') => (Raise e, c')
           end.

Notation "x <- m ;; k" := (bind m (fun x => k))
  (at level 61, m at next level, right associativity).
Notation "m ;; k" := (bind m (fun _ => k))
  (at level 61, right associativity).

(** A SELECT. *)
Definition fetch {A} (q : DB -> A) : M A := fun c => (Return (q (working c)), c).

(** An INSERT, UPDATE or DELETE. *)
Definition execute (f : DB -> DB) : M unit :=
  fun c => (Return tt, mkConn (committed c) (f (working c))).

(** [await conn.commit()] *)
Definition commit : M unit :=
  fun c => (Return tt, mkConn (working c) (working c)).

(** [async with connect() as conn: body] *)
Definition connect {A} (body : M A) (db : DB) : outcome A * DB :=
  let (r, c) := body (mkConn db db) in (r, committed c).

(* ================================================================== *)
(** ** The SQL statements of [crud.py], as functions on the tables *)

Definition is_pair (cid p : Z) (r : CartRow) : bool :=
  (cart_cid r =? cid) && (cart_pid r =? p).

Definition zsum (l : list Z) : Z := fold_right Z.add 0 l.



(** [LIMIT ? OFFSET ?] as SQLite reads them: a negative offset is no offset,
    a negative limit is no limit. *)
Definition limit_offset {A} (limit offset : Z) (l : list A) : list A :=
  let l' := skipn (Z.to_nat offset) l in
  if limit <? 0 then l' else firstn (Z.to_nat limit) l'.

(** [SELECT ... FROM products WHERE pid = ?], first row. *)
Definition product_row (p : Z) (db : DB) : option Product :=
  find (fun P => pid P =? p) (products db).

(** [SELECT stock_count FROM products WHERE pid = ?], first row. *)
Definition select_stock (p : Z) (db : DB) : option Z :=
  option_map stock_count (product_row p db).

(** [SELECT price, stock_count FROM products WHERE pid = ?], first row. *)
Definition select_price_stock (p : Z) (db : DB) : option (Q * Z) :=
  option_map (fun P => (price P, stock_count P)) (product_row p db).

(** [SELECT COALESCE(SUM(qty), 0) FROM cart WHERE cid=? AND pid=?] *)
Definition select_cart_total (cid p : Z) (db : DB) : Z :=
  zsum (map cart_qty (filter (is_pair cid p) (cart db))).

(** [DELETE FROM cart WHERE cid=? AND pid=?] *)
Definition delete_cart_pair (cid p : Z) : DB -> DB :=
  set_cart (filter (fun r => negb (is_pair cid p r))).

(** [DELETE FROM cart WHERE cid=?] *)
Definition delete_cart_customer (cid : Z) : DB -> DB :=
  set_cart (filter (fun r => negb (cart_cid r =? cid))).

(** [INSERT INTO cart(cid, sessionNo, pid, qty) VALUES (?, ?, ?, ?)] *)
Definition insert_cart (r : CartRow) : DB -> DB :=
  set_cart (fun rows => rows ++ [r]).

(** One more row of quantity [q] for the key [p] in a grouped result, kept in
    ascending key order. *)
Fixpoint group_add (p q : Z) (acc : list (Z * Z)) : list (Z * Z) :=
  match acc with
  | [] => [(p, q)]
  | (p', q') :: r =>
      if p <? p' then (p, q) :: acc
      else if p =? p' then (p', q' + q) :: r
      else (p', q') :: group_add p q r
  end.

(** [SELECT pid, SUM(qty) FROM cart WHERE cid=? GROUP BY pid]: one row per
    product, in ascending [pid] order (the order SQLite's grouping yields). *)
Definition select_cart_grouped (cid : Z) (db : DB) : list (Z * Z) :=
  fold_left (fun acc r => group_add (cart_pid r) (cart_qty r) acc)
            (filter (fun r => cart_cid r =? cid) (cart db)) [].

(** [SELECT 1 FROM orders WHERE ono=?] *)
Definition order_exists (n : Z) (db : DB) : bool :=
  existsb (fun o => ono o =? n) (orders db).

Definition insert_order (o : Order) : DB -> DB :=
  set_orders (fun rows => rows ++ [o]).

Definition insert_orderline (l : OrderLine) : DB -> DB :=
  set_orderlines (fun rows => rows ++ [l]).

Definition with_stock (P : Product) (stock : Z) : Product :=
  mkProduct (pid P) (name P) (category P) (price P) stock (descr P).

Definition take_stock (p use_qty : Z) (P : Product) : Product :=
  if pid P =? p then with_stock P (stock_count P - use_qty) else P.

(** [UPDATE products SET stock_count = stock_count - ? WHERE pid = ?] *)
Definition update_stock (use_qty p : Z) : DB -> DB :=
  set_products (map (take_stock p use_qty)).






(* ================================================================== *)
(** ** Product search *)








(* ================================================================== *)
(** ** Cart management *)

Definition list_cart (cid sessionNo : Z) : DB -> outcome (list CartItem) * DB :=
  connect (
    rows <- fetch (select_cart_grouped cid) ;;
    ret (map (fun row => mkCartItem cid sessionNo (fst row) (snd row)) rows)).

Definition stock_or_zero (row : option Z) : Z :=
  match row with Some s => s | None => 0 end.

Definition add_to_cart (cid sessionNo p q : Z) : DB -> outcome unit * DB :=
  connect (
    row <- fetch (select_stock p) ;;
    let stock := stock_or_zero row in
    if (stock <=? 0) || (q <=? 0) then ret tt
    else
      cur_total <- fetch (select_cart_total cid p) ;;
      let new_total := Z.min (cur_total + q) stock in
      execute (delete_cart_pair cid p) ;;
      execute (insert_cart (mkCartRow cid sessionNo p new_total)) ;;
      commit).

Definition update_cart_qty (cid sessionNo p q : Z) : DB -> outcome unit * DB :=
  if q <? 0 then fun db => (Raise (ValueError "Quantity cannot be negative."), db)
  else
    connect (
      if q =? 0 then
        execute (delete_cart_pair cid p) ;;
        commit
      else
        row <- fetch (select_stock p) ;;
        let stock := stock_or_zero row in
        let q' := Z.min q stock in
        execute (delete_cart_pair cid p) ;;
        execute (insert_cart (mkCartRow cid sessionNo p q')) ;;
        commit).

Definition remove_from_cart (cid sessionNo p : Z) : DB -> outcome unit * DB :=
  connect (execute (delete_cart_pair cid p) ;; commit).

Definition clear_cart (cid sessionNo : Z) : DB -> outcome unit * DB :=
  connect (execute (delete_cart_customer cid) ;; commit).

Definition set_cart_qty_if_in_stock (cid sessionNo p q : Z)
  : DB -> outcome bool * DB :=
  if q <? 0 then fun db => (Return false, db)
  else
    connect (
      row <- fetch (select_stock p) ;;
      let stock := stock_or_zero row in
      if stock <? q then ret false
      else
        execute (delete_cart_pair cid p) ;;
        execute (insert_cart (mkCartRow cid sessionNo p q)) ;;
        commit ;;
        ret true).

(* ================================================================== *)
(** ** Checkout *)

(** [while True: ono = random.randint(100000, 999999) ...]: the draws are
    tried in turn until one is not an order number yet.  [None] when the
    draws run out first. *)
Fixpoint pick_ono (draws : list Z) : M (option Z) :=
  match draws with
  | [] => ret None
  | n :: rest =>
      taken <- fetch (order_exists n) ;;
      if taken then pick_ono rest else ret (Some n)
  end.

(** The loop over [cart_rows]; the result is the final [line_no]. *)
Fixpoint checkout_lines (n : Z) (cart_rows : list (Z * Z)) (line_no : Z) : M Z :=
  match cart_rows with
  | [] => ret line_no
  | (p, q) :: rest =>
      row <- fetch (select_price_stock p) ;;
      match row with
      | None => checkout_lines n rest line_no
      | Some (price, stock) =>
          let use_qty := Z.min q stock in
          if use_qty <=? 0 then checkout_lines n rest line_no
          else
            execute (insert_orderline (mkOrderLine n line_no p use_qty price)) ;;
            execute (update_stock use_qty p) ;;
            checkout_lines n rest (line_no + 1)
      end
  end.

Definition checkout_body (draws : list Z) (cid sessionNo : Z)
    (shipping_address : text) (odate : Z) : M (option Z) :=
  cart_rows <- fetch (select_cart_grouped cid) ;;
  picked <- pick_ono draws ;;
  match picked with
  | None => ret None
  | Some n =>
      execute (insert_order (mkOrder n cid sessionNo odate shipping_address)) ;;
      checkout_lines n cart_rows 1 ;;
      execute (delete_cart_customer cid) ;;
      commit ;;
      ret (Some n)
  end.

(** [checkout] with the random source [draws]; [None] when no draw is a free
    order number (the source's loop is then still drawing). *)
Definition checkout (draws : list Z) (cid sessionNo : Z)
    (shipping_address : text) (odate : Z) (db : DB) : option (Z * DB) :=
  match connect (checkout_body draws cid sessionNo shipping_address odate) db with
  | (Return (Some n), db') => Some (n, db')
  | _ => None
  end.

(* ================================================================== *)
(** ** What the statements talk about *)

(** The persisted rows of the pair [(cid, p)]. *)
Definition pair_rows (cid p : Z) (db : DB) : list CartRow :=
  filter (is_pair cid p) (cart db).

(** The persisted rows of every other pair. *)
Definition other_rows (cid p : Z) (db : DB) : list CartRow :=
  filter (fun r => negb (is_pair cid p r)) (cart db).

(** The stock a cart write sees: the product's [stock_count], 0 when the
    product is absent. *)
Definition current_stock (p : Z) (db : DB) : Z :=
  stock_or_zero (select_stock p db).

(** Two states that differ at most in the cart table. *)
Definition same_but_cart (db db' : DB) : Prop :=
  products db' = products db /\ orders db' = orders db
  /\ orderlines db' = orderlines db /\ search db' = search db.

(** The calls of the cart ledger that add or set a quantity. *)
Inductive cart_call :=
| AddQuantity (cid sessionNo p q : Z)
| SetQuantity (cid sessionNo p q : Z).

(** The state a call leaves; a call that raises leaves the state it found. *)
Definition run_call (db : DB) (c : cart_call) : DB :=
  match c with
  | AddQuantity cid s p q => snd (add_to_cart cid s p q db)
  | SetQuantity cid s p q => snd (update_cart_qty cid s p q db)
  end.

Definition run_calls (calls : list cart_call) (db : DB) : DB :=
  fold_left run_call calls db.

(** The ledger invariant: at most one persisted row per pair, and no
    persisted row above the stock of its product. *)
Definition ledger_ok (db : DB) : Prop :=
  forall cid p,
    (List.length (pair_rows cid p db) <= 1)%nat
    /\ forall r P, In r (pair_rows cid p db) -> In P (products db) -> pid P = p ->
                   cart_qty r <= stock_count P.

(** A small catalogue in the shape of the seed data the tests use, with an
    empty cart. *)
Definition demo_cable : Product :=
  mkProduct 2003 (str "USB-C Cable") (str "Cables") (10 # 1) 2
    (str "Fast charging cable for keyboard and phone").

Definition demo_products : list Product :=
  [ mkProduct 2001 (str "Wireless Mouse") (str "Accessories") (25 # 1) 10
      (str "Ergonomic wireless mouse");
    mkProduct 2002 (str "Mechanical Keyboard") (str "Accessories") (80 # 1) 5
      (str "RGB backlit keyboard with blue switches");
    demo_cable;
    mkProduct 2006 (str "Bluetooth Speaker") (str "Audio") (45 # 1) 0
      (str "Portable speaker") ].

Definition demo_db : DB := mkDB demo_products [] [] [] [].














(** What checkout commits for one product. *)
Record Commit := mkCommit {
  commit_pid : Z;
  commit_qty : Z;
  commit_price : Q
}.

(** The line checkout commits for a grouped cart row [(pid, cartQty)], read
    in the state [db]: none when the product is gone, none when
    [min cartQty stock <= 0], else [min cartQty stock] at the product's
    price. *)
Definition committed_line (db : DB) (row : Z * Z) : option Commit :=
  match product_row (fst row) db with
  | None => None
  | Some P =>
      let committedQty := Z.min (snd row) (stock_count P) in
      if committedQty <=? 0 then None
      else Some (mkCommit (fst row) committedQty (price P))
  end.

Fixpoint committed_lines (db : DB) (rows : list (Z * Z)) : list Commit :=
  match rows with
  | [] => []
  | row :: rest =>
      match committed_line db row with
      | None => committed_lines db rest
      | Some l => l :: committed_lines db rest
      end
  end.

(** Order lines numbered from [line_no] on, one per committed line. *)
Fixpoint number_lines (n line_no : Z) (lines : list Commit) : list OrderLine :=
  match lines with
  | [] => []
  | l :: rest =>
      mkOrderLine n line_no (commit_pid l) (commit_qty l) (commit_price l)
      :: number_lines n (line_no + 1) rest
  end.

(** The quantity committed for product [p]: 0 when no line is for [p]. *)
Definition committed_qty (lines : list Commit) (p : Z) : Z :=
  match find (fun l => commit_pid l =? p) lines with
  | Some l => commit_qty l
  | None => 0
  end.

(** The total of the key [p] in a grouped result. *)
Definition group_total (p : Z) (acc : list (Z * Z)) : Z :=
  zsum (map snd (filter (fun g => fst g =? p) acc)).

(** A database with a cart for customer 1002 and one earlier order. *)
Definition demo_cart_db : DB :=
  mkDB demo_products
       [ mkCartRow 1002 1 2003 10; mkCartRow 1002 1 2006 1;
         mkCartRow 1001 7 2001 1; mkCartRow 1002 2 2003 1;
         mkCartRow 1002 2 4242 3; mkCartRow 1002 2 2001 4 ]
       [ mkOrder 100001 1001 1 20251101 (str "Here") ]
       [ mkOrderLine 100001 1 2002 1 (80 # 1) ]
       [].

(** The state the loop of checkout leaves: one order line per committed line,
    numbered from [line_no], and each product's stock less what was
    committed for it. *)
Definition after_lines (n line_no : Z) (lines : list Commit) (db : DB) : DB :=
  mkDB (map (fun P => with_stock P (stock_count P - committed_qty lines (pid P)))
            (products db))
       (cart db) (orders db)
       (orderlines db ++ number_lines n line_no lines)
       (search db).


(** Closes [pk_products] on a literal catalogue. *)
Ltac solve_key :=
  unfold pk_products; simpl;
  repeat (constructor; [simpl; intuition discriminate|]); constructor.

(** Every persisted cart row carries a positive quantity. *)
Definition rows_positive (db : DB) : Prop :=
  Forall (fun r => 0 < cart_qty r) (cart db).

(* ================================================================== *)
(** ** The catalogue and the orders: the other functions of [crud.py] *)

(** [get_product] *)
Definition get_product (p : Z) : DB -> outcome (option Product) * DB :=
  connect (row <- fetch (product_row p) ;; ret row).

(** [product_exists] *)
Definition product_exists (p : Z) : DB -> outcome bool * DB :=
  connect (
    row <- fetch (product_row p) ;;
    ret (match row with Some _ => true | None => false end)).

(** [product_stock] *)
Definition product_stock (p : Z) : DB -> outcome (option Z) * DB :=
  connect (row <- fetch (select_stock p) ;; ret row).

Definition set_price_stock (upd_price : Q) (upd_stock p : Z) (P : Product)
  : Product :=
  if pid P =? p
  then mkProduct (pid P) (name P) (category P) upd_price upd_stock (descr P)
  else P.

(** [UPDATE products SET price = ?, stock_count = ? WHERE pid = ?] *)
Definition update_price_stock (upd_price : Q) (upd_stock p : Z) : DB -> DB :=
  set_products (map (set_price_stock upd_price upd_stock p)).

(** The [rowcount] of that UPDATE: the rows its WHERE clause selects. *)
Definition rows_with_pid (p : Z) (db : DB) : nat :=
  List.length (filter (fun P => pid P =? p) (products db)).

Definition or_current {A} (new : option A) (current : A) : A :=
  match new with Some x => x | None => current end.

(** [update_product_price_stock]; [None] stands for an argument left out. *)
Definition update_product_price_stock (p : Z) (new_price : option Q)
    (new_stock_count : option Z) : DB -> outcome bool * DB :=
  match new_price, new_stock_count with
  | None, None => fun db => (Return false, db)
  | _, _ =>
      connect (
        row <- fetch (select_price_stock p) ;;
        match row with
        | None => ret false
        | Some (price, stock) =>
            let upd_price := or_current new_price price in
            let upd_stock := or_current new_stock_count stock in
            rowcount <- fetch (rows_with_pid p) ;;
            execute (update_price_stock upd_price upd_stock p) ;;
            commit ;;
            ret (0 <? rowcount)%nat
        end)
  end.

(** [ORDER BY odate DESC]: a stable insertion sort, newest first. *)
Fixpoint insert_by_odate (o : Order) (l : list Order) : list Order :=
  match l with
  | [] => [o]
  | o' :: r => if odate o' <=? odate o then o :: l else o' :: insert_by_odate o r
  end.

Definition order_by_odate_desc (l : list Order) : list Order :=
  fold_right insert_by_odate [] l.

(** [SELECT ... FROM orders WHERE cid = ? ORDER BY odate DESC] *)
Definition select_orders_of (cid : Z) (db : DB) : list Order :=
  order_by_odate_desc (filter (fun o => order_cid o =? cid) (orders db)).

(** [list_orders] *)
Definition list_orders (cid page page_size : Z)
  : DB -> outcome (list Order * Z) * DB :=
  connect (
    total <- fetch (fun db =>
               Z.of_nat (List.length
                           (filter (fun o => order_cid o =? cid) (orders db)))) ;;
    let offset := Z.max (page - 1) 0 * page_size in
    rows <- fetch (fun db => limit_offset page_size offset (select_orders_of cid db)) ;;
    ret (rows, total)).

(** [ORDER BY lineNo]: a stable insertion sort. *)
Fixpoint insert_by_lineNo (l : OrderLine) (ls : list OrderLine) : list OrderLine :=
  match ls with
  | [] => [l]
  | l' :: r => if lineNo l <=? lineNo l' then l :: ls else l' :: insert_by_lineNo l r
  end.

Definition order_by_lineNo (ls : list OrderLine) : list OrderLine :=
  fold_right insert_by_lineNo [] ls.

(** [SELECT ... FROM orderlines WHERE ono = ? ORDER BY lineNo] *)
Definition select_lines_of (n : Z) (db : DB) : list OrderLine :=
  order_by_lineNo (filter (fun ol => line_ono ol =? n) (orderlines db)).

(** [get_order_detail]: [(None, [])] for an order number that is not there. *)
Definition get_order_detail (n : Z)
  : DB -> outcome (option Order * list OrderLine) * DB :=
  connect (
    order_row <- fetch (fun db => find (fun o => ono o =? n) (orders db)) ;;
    match order_row with
    | None => ret (None, [])
    | Some o =>
        line_rows <- fetch (select_lines_of n) ;;
        ret (Some o, line_rows)
    end).

(** [compute_order_total].  The sum is SQLite's, over floating-point
    products [qty * uprice]: it is the parameter [float_sum], applied to the
    lines of the order; without a line [SUM] is NULL and [COALESCE] gives
    0.0. *)
Definition compute_order_total (float_sum : list (Z * Q) -> Q) (n : Z)
  : DB -> outcome Q * DB :=
  connect (
    row <- fetch (fun db =>
             match filter (fun ol => line_ono ol =? n) (orderlines db) with
             | [] => 0%Q
             | ls => float_sum (map (fun ol => (qty ol, uprice ol)) ls)
             end) ;;
    ret row).

(** *** Top products *)

Definition distinct (l : list Z) : list Z := nodup Z.eq_dec l.

(** [ORDER BY count DESC, pid]: does row [a] come no later than row [b]? *)
Definition rank_before (a b : Z * Z) : bool :=
  (snd b <? snd a) || ((snd a =? snd b) && (fst a <=? fst b)).

Fixpoint insert_ranked (a : Z * Z) (l : list (Z * Z)) : list (Z * Z) :=
  match l with
  | [] => [a]
  | b :: r => if rank_before a b then a :: l else b :: insert_ranked a r
  end.

Definition order_by_count_desc (l : list (Z * Z)) : list (Z * Z) :=
  fold_right insert_ranked [] l.

(** [SELECT pid, COUNT(DISTINCT ono) AS order_count FROM orderlines
    GROUP BY pid ORDER BY order_count DESC, pid] *)
Definition select_order_counts (db : DB) : list (Z * Z) :=
  order_by_count_desc
    (map (fun p =>
            (p, Z.of_nat
                  (List.length
                     (distinct (map line_ono
                                    (filter (fun ol => line_pid ol =? p)
                                            (orderlines db)))))))
         (distinct (map line_pid (orderlines db)))).

(** [rows[:k]] *)
Definition py_slice_to {A} (k : Z) (rows : list A) : list A :=
  if 0 <=? k then firstn (Z.to_nat k) rows
  else firstn (List.length rows - Z.to_nat (- k)) rows.

(** What [top_products_by_orders] and [top_products_by_views] do with the
    ranked rows. *)
Definition top_rows (rows : list (Z * Z)) (k : Z) (include_ties_at_k : bool)
  : list (Z * Z) :=
  match rows with
  | [] => []
  | _ =>
      if negb include_ties_at_k then py_slice_to k rows
      else if k <? 1 then []
      else
        let threshold :=
          snd (nth (Nat.min (Z.to_nat k) (List.length rows) - 1) rows (0, 0)) in
        filter (fun r => threshold <=? snd r) rows
  end.

(** [top_products_by_orders] (its [as_of] argument is not used). *)
Definition top_products_by_orders (k : Z) (include_ties_at_k : bool)
  : DB -> outcome (list (Z * Z)) * DB :=
  connect (
    rows <- fetch select_order_counts ;;
    ret (top_rows rows k include_ties_at_k)).

(* ================================================================== *)
(** ** Accounts, sessions and views

    The tables [users], [customers], [sessions] and [viewedProduct] are read
    and written by functions that touch no table of [DB]; they are kept in a
    state of their own, with the same connection discipline.  As for the
    other tables, the schema and the trigger file are not part of the
    sources: no constraint and no trigger is modelled, and text columns
    compare exactly. *)

Record User := mkUser {
  uid : Z;
  pwd : text;
  role : text
}.

Record Customer := mkCustomer {
  cid : Z;
  customer_name : text;
  email : text
}.

Record Session := mkSession {
  session_cid : Z;
  sessionNo : Z;
  start_time : Z;
  end_time : option Z
}.

Record ViewedProduct := mkViewedProduct {
  view_cid : Z;
  view_sessionNo : Z;
  view_ts : Z;
  view_pid : Z
}.

Record Site := mkSite {
  users : list User;
  customers : list Customer;
  sessions : list Session;
  viewedProduct : list ViewedProduct
}.

Section Transactions.
Variable S : Type.

(** An open connection on a state of type [S]. *)
Record TxConn := mkTxConn { persisted : S; current : S }.

Definition Tx (A : Type) := TxConn -> outcome A * TxConn.

Definition tx_ret {A} (a : A) : Tx A := fun c => (Return a, c).

Definition tx_bind {A B} (m : Tx A) (k : A -> Tx B) : Tx B :=
  fun c => match m c with
           | (Return a, c') => k a c'
           | (Raise e, c') => (Raise e, c')
           end.

Definition tx_fetch {A} (q : S -> A) : Tx A :=
  fun c => (Return (q (current c)), c).

Definition tx_execute (f : S -> S) : Tx unit :=
  fun c => (Return tt, mkTxConn (persisted c) (f (current c))).

Definition tx_commit : Tx unit :=
  fun c => (Return tt, mkTxConn (current c) (current c)).

Definition tx_connect {A} (body : Tx A) (s : S) : outcome A * S :=
  let (r, c) := body (mkTxConn s s) in (r, persisted c).
End Transactions.

Arguments mkTxConn {S}.
Arguments persisted {S}.
Arguments current {S}.
Arguments tx_ret {S A}.
Arguments tx_bind {S A B}.
Arguments tx_fetch {S A}.
Arguments tx_execute {S}.
Arguments tx_commit {S}.
Arguments tx_connect {S A}.

Declare Scope tx_scope.
Delimit Scope tx_scope with tx.
Notation "x <- m ;; k" := (tx_bind m (fun x => k))
  (at level 61, m at next level, right associativity) : tx_scope.
Notation "m ;; k" := (tx_bind m (fun _ => k))
  (at level 61, right associativity) : tx_scope.

(** *** Auth and registration *)

(** [SELECT 1 FROM users WHERE uid = ?] *)
Definition uid_exists (u : Z) (s : Site) : bool :=
  existsb (fun x => uid x =? u) (users s).

(** [email_available] *)
Definition email_available (e : text) : Site -> outcome bool * Site :=
  tx_connect (
    row <- tx_fetch (fun s => find (fun c => text_eqb (email c) e) (customers s)) ;;
    tx_ret (match row with None => true | Some _ => false end))%tx.

(** The loop of [_generate_uid_unique]: the draws are tried in turn until one
    is no uid yet; [None] when the draws run out first. *)
Fixpoint pick_uid (draws : list Z) : Tx Site (option Z) :=
  match draws with
  | [] => tx_ret None
  | u :: rest =>
      (taken <- tx_fetch (uid_exists u) ;;
       if taken then pick_uid rest else tx_ret (Some u))%tx
  end.

(** [_generate_uid_unique] *)
Definition generate_uid_unique (draws : list Z) (s : Site) : option Z :=
  match tx_connect (pick_uid draws) s with
  | (Return (Some u), _) => Some u
  | _ => None
  end.

(** How the [for _ in range(10000)] loop of [generate_uid] ends. *)
Inductive uid_loop_end :=
| Found (cand : Z)
| Exhausted (rest : list Z)
| StillDrawing.

Fixpoint generate_uid_loop (n : nat) (draws : list Z) : Tx Site uid_loop_end :=
  match n with
  | O => tx_ret (Exhausted draws)
  | Datatypes.S n' =>
      match draws with
      | [] => tx_ret StillDrawing
      | cand :: rest =>
          (taken <- tx_fetch (uid_exists cand) ;;
           if taken then generate_uid_loop n' rest else tx_ret (Found cand))%tx
      end
  end.

(** [generate_uid]; the arguments [name] and [email] are not used by the
    source. *)
Definition generate_uid (name email : text) (draws : list Z) (s : Site)
  : option Z :=
  match tx_connect (generate_uid_loop (100 * 100) draws) s with
  | (Return (Found cand), _) => Some cand
  | (Return (Exhausted rest), s') => generate_uid_unique rest s'
  | _ => None
  end.

Definition customer_role : text := str "customer".

(** [register_customer]; [None] when no draw is a free uid. *)
Definition register_customer (draws : list Z) (name email pwd : text) (s : Site)
  : option ((Z * Z) * Site) :=
  match generate_uid_unique draws s with
  | None => None
  | Some u =>
      let cid := u in
      match
        tx_connect (
          tx_execute (fun s =>
            mkSite (users s ++ [mkUser u pwd customer_role]) (customers s)
                   (sessions s) (viewedProduct s)) ;;
          tx_execute (fun s =>
            mkSite (users s) (customers s ++ [mkCustomer cid name email])
                   (sessions s) (viewedProduct s)) ;;
          tx_commit ;;
          tx_ret (u, cid))%tx s
      with
      | (Return r, s') => Some (r, s')
      | _ => None
      end
  end.

(** [SELECT uid, pwd, role FROM users WHERE uid = ? AND pwd = ?], first row *)
Definition select_login (u : Z) (p : text) (s : Site) : option User :=
  find (fun x => (uid x =? u) && text_eqb (pwd x) p) (users s).

(** [login] *)
Definition login (u : Z) (p : text) : Site -> outcome (option User) * Site :=
  tx_connect (row <- tx_fetch (select_login u p) ;; tx_ret row)%tx.

(** [SELECT ... FROM users WHERE uid = ?], first row *)
Definition select_user (u : Z) (s : Site) : option User :=
  find (fun x => uid x =? u) (users s).

(** [get_user_role] *)
Definition get_user_role (u : Z) : Site -> outcome (option text) * Site :=
  tx_connect (row <- tx_fetch (select_user u) ;; tx_ret (option_map role row))%tx.

(** [get_user] *)
Definition get_user (u : Z) : Site -> outcome (option User) * Site :=
  tx_connect (row <- tx_fetch (select_user u) ;; tx_ret row)%tx.

(** [SELECT c.cid, c.name, c.email FROM customers c JOIN users u
    ON c.cid = u.uid WHERE u.uid = ?], first row: a customer row with
    [cid = uid], provided a user row has that uid. *)
Definition select_customer_of (u : Z) (s : Site) : option Customer :=
  if uid_exists u s then find (fun c => cid c =? u) (customers s) else None.

(** [get_customer] *)
Definition get_customer (u : Z) : Site -> outcome (option Customer) * Site :=
  tx_connect (row <- tx_fetch (select_customer_of u) ;; tx_ret row)%tx.

(** *** Sessions *)

Definition session_exists (c n : Z) (s : Site) : bool :=
  existsb (fun x => (session_cid x =? c) && (sessionNo x =? n)) (sessions s).

(** The loop of [start_session] over the draws. *)
Fixpoint pick_session_no (c : Z) (draws : list Z) : Tx Site (option Z) :=
  match draws with
  | [] => tx_ret None
  | n :: rest =>
      (taken <- tx_fetch (session_exists c n) ;;
       if taken then pick_session_no c rest else tx_ret (Some n))%tx
  end.

(** [start_session]; [None] when no draw is a free session number. *)
Definition start_session (draws : list Z) (c start : Z) (s : Site)
  : option (Z * Site) :=
  match
    tx_connect (
      picked <- pick_session_no c draws ;;
      match picked with
      | None => tx_ret None
      | Some n =>
          tx_execute (fun s =>
            mkSite (users s) (customers s)
                   (sessions s ++ [mkSession c n start None])
                   (viewedProduct s)) ;;
          tx_commit ;;
          tx_ret (Some n)
      end)%tx s
  with
  | (Return (Some n), s') => Some (n, s')
  | _ => None
  end.

Definition close_session (c n t : Z) (x : Session) : Session :=
  if (session_cid x =? c) && (sessionNo x =? n)
  then mkSession (session_cid x) (sessionNo x) (start_time x) (Some t)
  else x.

(** [end_session] *)
Definition end_session (c n t : Z) : Site -> outcome unit * Site :=
  tx_connect (
    tx_execute (fun s =>
      mkSite (users s) (customers s) (map (close_session c n t) (sessions s))
             (viewedProduct s)) ;;
    tx_commit)%tx.

(** *** [utils/state.py] *)

Record GlobalState := mkGlobalState {
  state_uid : option Z;
  state_role : option text;
  state_session_no : option Z
}.

Definition is_customer (r : option text) : bool :=
  match r with Some t => text_eqb t customer_role | None => false end.

(** [GlobalState.start_session]: the new state, the answer and the site;
    [None] while [crud.start_session] is still drawing.  [now] is
    [datetime.now()]. *)
Definition state_start_session (draws : list Z) (now : Z) (when : option Z)
    (g : GlobalState) (s : Site) : option (GlobalState * option Z * Site) :=
  match state_uid g with
  | Some u =>
      if is_customer (state_role g) then
        match start_session draws u (or_current when now) s with
        | None => None
        | Some (n, s') =>
            Some (mkGlobalState (state_uid g) (state_role g) (Some n), Some n, s')
        end
      else Some (g, None, s)
  | None => Some (g, None, s)
  end.

(** [GlobalState.end_session] *)
Definition state_end_session (now : Z) (when : option Z) (g : GlobalState)
    (s : Site) : GlobalState * Site :=
  match state_uid g, state_session_no g with
  | Some u, Some n =>
      if is_customer (state_role g) then
        (mkGlobalState None None None,
         snd (end_session u n (or_current when now) s))
      else (g, s)
  | _, _ => (g, s)
  end.

(** *** Views *)

(** [record_view] *)
Definition record_view (c n p t : Z) : Site -> outcome unit * Site :=
  tx_connect (
    tx_execute (fun s =>
      mkSite (users s) (customers s) (sessions s)
             (viewedProduct s ++ [mkViewedProduct c n t p])) ;;
    tx_commit)%tx.

(** [SELECT pid, COUNT( * ) AS view_count FROM viewedProduct GROUP BY pid
    ORDER BY view_count DESC, pid] *)
Definition select_view_counts (s : Site) : list (Z * Z) :=
  order_by_count_desc
    (map (fun p =>
            (p, Z.of_nat
                  (List.length
                     (filter (fun v => view_pid v =? p) (viewedProduct s)))))
         (distinct (map view_pid (viewedProduct s)))).

(** [top_products_by_views] *)
Definition top_products_by_views (k : Z) (include_ties_at_k : bool)
  : Site -> outcome (list (Z * Z)) * Site :=
  tx_connect (
    rows <- tx_fetch select_view_counts ;;
    tx_ret (top_rows rows k include_ties_at_k))%tx.

(* ================================================================== *)
(** ** [utils/pure.py]: the Markdown table *)

(** The alignments ['l'], ['c'] and ['r']. *)
Inductive align := AlignL | AlignC | AlignR.

Definition align_map (a : align) : text :=
  match a with
  | AlignL => str ":---"
  | AlignC => str ":---:"
  | AlignR => str "---:"
  end.

Definition newline : ascii := ascii_of_nat 10.

(** [sep.join(parts)] *)
Fixpoint join (sep : text) (parts : list text) : text :=
  match parts with
  | [] => []
  | x :: rest =>
      match rest with
      | [] => x
      | _ => x ++ sep ++ join sep rest
      end
  end.

(** ["| " + " | ".join(cells) + " |"] *)
Definition table_line (cells : list text) : text :=
  str "| " ++ join (str " | ") cells ++ str " |".

(** The headers and the data rows once a missing or empty [headers] has
    taken the first row. *)
Definition headers_and_rows (headers : option (list text)) (first : list text)
    (rest : list (list text)) : list text * list (list text) :=
  match headers with
  | None | Some [] => (first, rest)
  | Some h => (h, first :: rest)
  end.

(** [generate_markdown_table]; the cells are strings already. *)
Definition generate_markdown_table (headers : option (list text))
    (rows : list (list text)) (aligns : option (list align)) : outcome text :=
  match rows with
  | [] => Return []
  | first :: rest =>
      let (headers', rows') := headers_and_rows headers first rest in
      let num_cols := List.length headers' in
      let checked :=
        match aligns with
        | None => Return (repeat AlignC num_cols)
        | Some a =>
            if (List.length a =? num_cols)%nat then Return a
            else Raise (ValueError "Length of aligns must match number of headers.")
        end in
      match checked with
      | Raise e => Raise e
      | Return aligns' =>
          Return (join [newline]
                    (table_line headers'
                     :: table_line (map align_map aligns')
                     :: map table_line rows'))
      end
  end.

(* ================================================================== *)
(** ** What the further statements talk about *)

(** Every order line belongs to an order of the table. *)
Definition lines_have_orders (db : DB) : Prop :=
  forall ol, In ol (orderlines db) -> order_exists (line_ono ol) db = true.

(** The orders of a customer, in table order. *)
Definition orders_of (cid : Z) (db : DB) : list Order :=
  filter (fun o => order_cid o =? cid) (orders db).

(** The rows of a result, [[]] for a call that raised. *)
Definition rows_of {A B} (r : outcome (list A * B)) : list A :=
  match r with Return (rows, _) => rows | Raise _ => [] end.

(** Pages 1 to [n] of [list_orders], one call each. *)
Definition order_pages (cid page_size : Z) (n : nat) (db : DB) : list (list Order) :=
  map (fun page => rows_of (fst (list_orders cid (Z.of_nat page) page_size db)))
      (seq 1 n).


Definition newest_first (l : list Order) : Prop :=
  Sorted (fun a b => odate b <= odate a) l.

Definition ascending_lineNo (l : list OrderLine) : Prop :=
  Sorted (fun a b => lineNo a <= lineNo b) l.

(** A ranking: counts never increase along the list. *)
Definition counts_descend (rows : list (Z * Z)) : Prop :=
  StronglySorted (fun a b => snd b <= snd a) rows.

(** [res] is the top [k] of the ranking [rows] with the ties at rank [k]:
    the first [m] rows for an [m] that reaches [k] (or the whole ranking),
    where every row from rank [k] on has the count of rank [k] and every row
    left out has less. *)
Definition top_with_ties (rows : list (Z * Z)) (k : nat) (res : list (Z * Z))
  : Prop :=
  let kth := snd (nth (Nat.min k (List.length rows) - 1) rows (0, 0)) in
  exists m,
    res = firstn m rows
    /\ (Nat.min k (List.length rows) <= m)%nat
    /\ (forall i, (Nat.min k (List.length rows) <= i < m)%nat ->
                  snd (nth i rows (0, 0)) = kth)
    /\ (forall r, In r (skipn m rows) -> snd r < kth).

(** In how many distinct orders product [p] occurs. *)
Definition orders_with (p : Z) (db : DB) : Z :=
  Z.of_nat (List.length
              (distinct (map line_ono
                             (filter (fun ol => line_pid ol =? p) (orderlines db))))).

(** How many views product [p] has. *)
Definition views_of (p : Z) (s : Site) : Z :=
  Z.of_nat (List.length (filter (fun v => view_pid v =? p) (viewedProduct s))).

(** Every customer row belongs to a user row ([cid] is the user's [uid]). *)
Definition customers_are_users (s : Site) : Prop :=
  forall c, In c (customers s) -> uid_exists (cid c) s = true.

(** The sessions of the pair [(c, n)]. *)
Definition sessions_of (c n : Z) (s : Site) : list Session :=
  filter (fun x => (session_cid x =? c) && (sessionNo x =? n)) (sessions s).

(** A site with one sales account, one customer with a closed session and
    three views. *)
Definition demo_site : Site :=
  mkSite [mkUser 1001 (str "pw1") (str "customer");
          mkUser 1002 (str "pw2") (str "sales")]
         [mkCustomer 1001 (str "Alice") (str "alice@example.com")]
         [mkSession 1001 5000 10 (Some 20)]
         [mkViewedProduct 1001 5000 11 2001;
          mkViewedProduct 1001 5000 12 2002;
          mkViewedProduct 1001 5000 13 2001].

(** The lines of a text: the pieces between its line feeds. *)
Fixpoint text_lines (t : text) : list text :=
  match t with
  | [] => [[]]
  | c :: r =>
      if Ascii.eqb c newline then [] :: text_lines r
      else match text_lines r with
           | l :: ls => (c :: l) :: ls
           | [] => [[c]]
           end
  end.

Definition no_newline (t : text) : Prop := ~ In newline t.
(* ================================================================== *)
(** ** Lists and tables: helper lemmas *)

Lemma find_pid_absent (p : Z) (l : list Product) :
  ~ In p (map pid l) -> find (fun P => pid P =? p) l = None.
Proof.
  induction l as [|P l IH]; simpl; intros H; [reflexivity|].
  destruct (Z.eqb_spec (pid P) p) as [e|_].
  - exfalso. apply H. now left.
  - apply IH. intros Hin. apply H. now right.
Qed.

Lemma find_pid_key (P : Product) (l : list Product) :
  NoDup (map pid l) -> In P l -> find (fun P' => pid P' =? pid P) l = Some P.
Proof.
  induction l as [|P' l IH]; simpl; intros Hnd Hin; [contradiction|].
  inversion Hnd as [|? ? Hnotin Hnd']; subst.
  destruct Hin as [->|Hin].
  - now rewrite Z.eqb_refl.
  - destruct (Z.eqb_spec (pid P') (pid P)) as [e|_].
    + exfalso. apply Hnotin. rewrite e. now apply in_map.
    + now apply IH.
Qed.

Lemma find_pid_some (p : Z) (P : Product) (l : list Product) :
  find (fun P' => pid P' =? p) l = Some P -> In P l /\ pid P = p.
Proof.
  intros H. apply find_some in H. destruct H as [Hin He].
  split; [assumption|]. now apply Z.eqb_eq.
Qed.

Lemma filter_filter_neg {A} (f : A -> bool) (l : list A) :
  filter f (filter (fun x => negb (f x)) l) = [].
Proof.
  induction l as [|x l IH]; simpl; [reflexivity|].
  destruct (f x) eqn:E; simpl; [assumption|].
  now rewrite E.
Qed.

Lemma filter_neg_idem {A} (f : A -> bool) (l : list A) :
  filter (fun x => negb (f x)) (filter (fun x => negb (f x)) l)
  = filter (fun x => negb (f x)) l.
Proof.
  induction l as [|x l IH]; simpl; [reflexivity|].
  destruct (f x) eqn:E; simpl; [assumption|].
  rewrite E. simpl. now rewrite IH.
Qed.

Lemma is_pair_row (cid s p q : Z) : is_pair cid p (mkCartRow cid s p q) = true.
Proof. unfold is_pair; simpl. now rewrite !Z.eqb_refl. Qed.

Lemma is_pair_other (cid p cid' p' : Z) (r : CartRow) :
  (cid', p') <> (cid, p) -> is_pair cid' p' r = true -> is_pair cid p r = false.
Proof.
  unfold is_pair. intros Hne H.
  apply andb_true_iff in H. destruct H as [H1 H2].
  apply Z.eqb_eq in H1, H2.
  destruct (Z.eqb_spec (cart_cid r) cid), (Z.eqb_spec (cart_pid r) p);
    simpl; try reflexivity.
  exfalso. apply Hne. congruence.
Qed.

Lemma filter_pair_other (cid p cid' p' : Z) (l : list CartRow) :
  (cid', p') <> (cid, p) ->
  filter (is_pair cid' p') (filter (fun r => negb (is_pair cid p r)) l)
  = filter (is_pair cid' p') l.
Proof.
  intros Hne. induction l as [|r l IH]; simpl; [reflexivity|].
  destruct (is_pair cid' p' r) eqn:E'.
  - rewrite (is_pair_other _ _ _ _ _ Hne E'). simpl. rewrite E'. now rewrite IH.
  - destruct (is_pair cid p r); simpl; [assumption|]. now rewrite E'.
Qed.

(** The consolidating replace: every row of the pair goes, one row comes. *)
Lemma replace_pair_rows (cid s p q : Z) (db : DB) :
  let db' := insert_cart (mkCartRow cid s p q) (delete_cart_pair cid p db) in
  pair_rows cid p db' = [mkCartRow cid s p q]
  /\ other_rows cid p db' = other_rows cid p db
  /\ select_cart_total cid p db' = q
  /\ same_but_cart db db'.
Proof.
  unfold pair_rows, other_rows, select_cart_total, same_but_cart; simpl.
  rewrite !filter_app, filter_filter_neg, filter_neg_idem. simpl.
  rewrite is_pair_row. simpl. rewrite app_nil_r.
  repeat split; try reflexivity. unfold zsum; simpl. lia.
Qed.

Lemma replace_pair_elsewhere (cid s p q cid' p' : Z) (db : DB) :
  (cid', p') <> (cid, p) ->
  pair_rows cid' p' (insert_cart (mkCartRow cid s p q) (delete_cart_pair cid p db))
  = pair_rows cid' p' db.
Proof.
  intros Hne. unfold pair_rows; simpl.
  rewrite filter_app, (filter_pair_other _ _ _ _ _ Hne). simpl.
  destruct (is_pair cid' p' (mkCartRow cid s p q)) eqn:E.
  - apply (is_pair_other cid p) in E; [|assumption].
    rewrite is_pair_row in E. discriminate.
  - apply app_nil_r.
Qed.

Lemma delete_pair_elsewhere (cid p cid' p' : Z) (db : DB) :
  (cid', p') <> (cid, p) ->
  pair_rows cid' p' (delete_cart_pair cid p db) = pair_rows cid' p' db.
Proof.
  intros Hne. unfold pair_rows; simpl. now apply filter_pair_other.
Qed.

Lemma delete_pair_rows (cid p : Z) (db : DB) :
  pair_rows cid p (delete_cart_pair cid p db) = [].
Proof. unfold pair_rows; simpl. apply filter_filter_neg. Qed.

(** What the three cart writers compute, one equation per path. *)
Lemma add_to_cart_eq (cid s p q : Z) (db : DB) :
  add_to_cart cid s p q db =
  if (current_stock p db <=? 0) || (q <=? 0) then (Return tt, db)
  else (Return tt,
        insert_cart
          (mkCartRow cid s p
             (Z.min (select_cart_total cid p db + q) (current_stock p db)))
          (delete_cart_pair cid p db)).
Proof.
  unfold add_to_cart, connect, bind, fetch, execute, commit, ret, current_stock.
  simpl. now destruct (_ || _).
Qed.

Lemma update_cart_qty_eq (cid s p q : Z) (db : DB) :
  update_cart_qty cid s p q db =
  if q <? 0 then (Raise (ValueError "Quantity cannot be negative."), db)
  else if q =? 0 then (Return tt, delete_cart_pair cid p db)
  else (Return tt,
        insert_cart (mkCartRow cid s p (Z.min q (current_stock p db)))
                    (delete_cart_pair cid p db)).
Proof.
  unfold update_cart_qty, connect, bind, fetch, execute, commit, ret, current_stock.
  destruct (q <? 0); [reflexivity|].
  now destruct (q =? 0).
Qed.

Lemma set_cart_qty_if_in_stock_eq (cid s p q : Z) (db : DB) :
  set_cart_qty_if_in_stock cid s p q db =
  if (q <? 0) || (current_stock p db <? q) then (Return false, db)
  else (Return true, insert_cart (mkCartRow cid s p q) (delete_cart_pair cid p db)).
Proof.
  unfold set_cart_qty_if_in_stock, connect, bind, fetch, execute, commit, ret,
    current_stock.
  destruct (q <? 0); [reflexivity|]. simpl.
  now destruct (_ <? q).
Qed.

Lemma current_stock_key (P : Product) (db : DB) :
  pk_products db -> In P (products db) ->
  current_stock (pid P) db = stock_count P.
Proof.
  intros Hpk Hin. unfold current_stock, select_stock, product_row.
  now rewrite (find_pid_key P _ Hpk Hin).
Qed.

Lemma current_stock_absent (p : Z) (db : DB) :
  ~ In p (map pid (products db)) -> current_stock p db = 0.
Proof.
  intros H. unfold current_stock, select_stock, product_row.
  now rewrite (find_pid_absent _ _ H).
Qed.

Lemma pair_eq_dec (a b : Z * Z) : {a = b} + {a <> b}.
Proof. decide equality; apply Z.eq_dec. Qed.

Lemma ledger_ok_empty (db : DB) : cart db = [] -> ledger_ok db.
Proof.
  intros E cid p. unfold pair_rows. rewrite E. simpl.
  split; [lia | intros ? ? []].
Qed.

Lemma ledger_ok_replace (cid s p q : Z) (db : DB) :
  pk_products db -> ledger_ok db -> q <= current_stock p db ->
  ledger_ok (insert_cart (mkCartRow cid s p q) (delete_cart_pair cid p db)).
Proof.
  intros Hpk Hok Hq cid' p'.
  destruct (pair_eq_dec (cid', p') (cid, p)) as [e|ne].
  - inversion e; subst.
    destruct (replace_pair_rows cid s p q db) as (Hrows & _ & _ & _).
    simpl in Hrows. rewrite Hrows. split; [simpl; lia|].
    intros r P [<-|[]] HP Hpid. simpl.
    rewrite <- Hpid in Hq. now rewrite (current_stock_key P db Hpk HP) in Hq.
  - rewrite (replace_pair_elsewhere _ _ _ _ _ _ _ ne). apply Hok.
Qed.

Lemma ledger_ok_delete (cid p : Z) (db : DB) :
  ledger_ok db -> ledger_ok (delete_cart_pair cid p db).
Proof.
  intros Hok cid' p'.
  destruct (pair_eq_dec (cid', p') (cid, p)) as [e|ne].
  - inversion e; subst. rewrite delete_pair_rows. simpl.
    split; [lia | intros ? ? []].
  - rewrite (delete_pair_elsewhere _ _ _ _ _ ne). apply Hok.
Qed.

Lemma run_call_products (db : DB) (c : cart_call) :
  products (run_call db c) = products db.
Proof.
  destruct c as [cid s p q|cid s p q]; simpl.
  - rewrite add_to_cart_eq. now destruct (_ || _).
  - rewrite update_cart_qty_eq. destruct (q <? 0); [reflexivity|].
    now destruct (q =? 0).
Qed.

Lemma run_call_ledger_ok (db : DB) (c : cart_call) :
  pk_products db -> ledger_ok db -> ledger_ok (run_call db c).
Proof.
  intros Hpk Hok. destruct c as [cid s p q|cid s p q]; simpl.
  - rewrite add_to_cart_eq. destruct (_ || _); simpl; [assumption|].
    apply ledger_ok_replace; [assumption..|lia].
  - rewrite update_cart_qty_eq. destruct (q <? 0); simpl; [assumption|].
    destruct (q =? 0); simpl.
    + now apply ledger_ok_delete.
    + apply ledger_ok_replace; [assumption..|lia].
Qed.

Lemma run_calls_products (calls : list cart_call) (db : DB) :
  products (run_calls calls db) = products db.
Proof.
  revert db. induction calls as [|c calls IH]; intros db; simpl; [reflexivity|].
  unfold run_calls in IH. now rewrite IH, run_call_products.
Qed.

Lemma run_calls_ledger_ok (calls : list cart_call) (db : DB) :
  pk_products db -> ledger_ok db -> ledger_ok (run_calls calls db).
Proof.
  revert db. induction calls as [|c calls IH]; intros db Hpk Hok; simpl;
    [assumption|].
  apply IH.
  - unfold pk_products. now rewrite run_call_products.
  - now apply run_call_ledger_ok.
Qed.

Lemma ledger_ok_total (db : DB) (cid : Z) (P : Product) :
  ledger_ok db -> In P (products db) -> 0 <= stock_count P ->
  select_cart_total cid (pid P) db <= stock_count P.
Proof.
  intros Hok HP Hpos. destruct (Hok cid (pid P)) as [Hlen Hle].
  unfold select_cart_total. fold (pair_rows cid (pid P) db).
  destruct (pair_rows cid (pid P) db) as [|r [|r' rows]] eqn:E; simpl in *.
  - assumption.
  - specialize (Hle r P (or_introl eq_refl) HP eq_refl). lia.
  - lia.
Qed.

Lemma demo_db_key : pk_products demo_db.
Proof. solve_key. Qed.

(* ================================================================== *)
(** ** Text: helper lemmas *)

Lemma text_eqb_eq (a b : text) : text_eqb a b = true <-> a = b.
Proof.
  revert b. induction a as [|x a IH]; intros [|y b]; simpl;
    try (split; [discriminate | intros H; discriminate H || reflexivity]);
    try (split; reflexivity).
  rewrite andb_true_iff, Ascii.eqb_eq, IH.
  split; [intros [-> ->]; reflexivity | intros H; inversion H; auto].
Qed.

Lemma text_eqb_refl (a : text) : text_eqb a a = true.
Proof. now apply text_eqb_eq. Qed.

Lemma text_eqb_sym (a b : text) : text_eqb a b = text_eqb b a.
Proof.
  destruct (text_eqb a b) eqn:E.
  - apply text_eqb_eq in E. subst. symmetry. apply text_eqb_refl.
  - destruct (text_eqb b a) eqn:E'; [|reflexivity].
    apply text_eqb_eq in E'. subst. now rewrite text_eqb_refl in E.
Qed.







(** *** strip *)










(** *** split *)












(* ================================================================== *)
(** ** Containment and LIKE *)

Lemma starts_with_spec (p t : text) :
  starts_with p t = true <-> exists post, t = p ++ post.
Proof.
  revert t. induction p as [|a p IH]; intros t; simpl.
  - split; [intros _; now exists t | reflexivity].
  - destruct t as [|b t].
    + split; [discriminate | intros [post H]; discriminate H].
    + rewrite andb_true_iff, Ascii.eqb_eq, IH. split.
      * intros [-> [post ->]]. now exists post.
      * intros [post H]. inversion H. split; [reflexivity | now exists post].
Qed.

(** [contains p t] says that [p] is a contiguous part of [t]. *)
Lemma contains_spec (p t : text) :
  contains p t = true <-> exists pre post, t = pre ++ p ++ post.
Proof.
  induction t as [|b t IH]; simpl.
  - rewrite orb_false_r, starts_with_spec. split.
    + intros [post H]. now exists [], post.
    + intros (pre & post & H). destruct pre; simpl in H; [now exists post|].
      discriminate H.
  - rewrite orb_true_iff, starts_with_spec, IH. split.
    + intros [[post H]|(pre & post & H)].
      * now exists [], post.
      * exists (b :: pre), post. simpl. now rewrite H.
    + intros (pre & post & H). destruct pre as [|x pre]; simpl in H.
      * left. now exists post.
      * right. inversion H. now exists pre, post.
Qed.







(* ================================================================== *)
(** ** ORDER BY pid *)











(* ================================================================== *)
(** ** Tokens and stages *)

Lemma filter_filter_and {A} (f g : A -> bool) (l : list A) :
  filter f (filter g l) = filter (fun x => g x && f x) l.
Proof.
  induction l as [|x l IH]; simpl; [reflexivity|].
  destruct (g x); simpl; [|assumption].
  destruct (f x); now rewrite IH.
Qed.














(* ================================================================== *)
(** ** The search functions, branch by branch *)

Lemma filter_all {A} (f : A -> bool) (l : list A) :
  (forall x, In x l -> f x = true) -> filter f l = l.
Proof.
  induction l as [|x l IH]; simpl; intros H; [reflexivity|].
  rewrite (H x (or_introl eq_refl)). f_equal. apply IH. auto.
Qed.













(* ================================================================== *)
(** ** GROUP BY pid *)

Lemma group_add_keys (p q x : Z) (acc : list (Z * Z)) :
  In x (map fst (group_add p q acc)) <-> x = p \/ In x (map fst acc).
Proof.
  induction acc as [|[p' q'] acc IH]; simpl.
  - intuition.
  - destruct (Z.ltb_spec p p'); simpl; [intuition|].
    destruct (Z.eqb_spec p p'); simpl; [subst; intuition|].
    rewrite IH. intuition.
Qed.

Lemma group_add_hd (a p q : Z) (acc : list (Z * Z)) :
  HdRel Z.lt a (map fst acc) -> a < p -> HdRel Z.lt a (map fst (group_add p q acc)).
Proof.
  destruct acc as [|[p' q'] acc]; simpl; intros H Hap.
  - now constructor.
  - inversion H; subst.
    destruct (p <? p'); simpl; [now constructor|].
    destruct (p =? p'); simpl; now constructor.
Qed.

Lemma group_add_sorted (p q : Z) (acc : list (Z * Z)) :
  Sorted Z.lt (map fst acc) -> Sorted Z.lt (map fst (group_add p q acc)).
Proof.
  induction acc as [|[p' q'] acc IH]; simpl; intros H.
  - repeat constructor.
  - inversion H as [|? ? Hs Hhd]; subst.
    destruct (Z.ltb_spec p p'); simpl.
    + constructor; [assumption | now constructor].
    + destruct (Z.eqb_spec p p'); simpl; [now constructor|].
      constructor; [now apply IH|]. apply group_add_hd; [assumption | lia].
Qed.

Lemma group_add_total (p q x : Z) (acc : list (Z * Z)) :
  group_total x (group_add p q acc)
  = group_total x acc + (if x =? p then q else 0).
Proof.
  unfold group_total. induction acc as [|[p' q'] acc IH]; simpl.
  - rewrite (Z.eqb_sym p x). destruct (x =? p); simpl; lia.
  - destruct (Z.ltb_spec p p'); simpl.
    + rewrite (Z.eqb_sym p x). destruct (x =? p); simpl;
        destruct (p' =? x); simpl; lia.
    + destruct (Z.eqb_spec p p'); simpl.
      * subst p'. rewrite (Z.eqb_sym p x). destruct (x =? p); simpl; lia.
      * destruct (Z.eqb_spec p' x); simpl.
        -- rewrite IH. lia.
        -- exact IH.
Qed.

Lemma sorted_keys_NoDup (l : list Z) : Sorted Z.lt l -> NoDup l.
Proof.
  intros H. apply Sorted_StronglySorted in H; [|intros a b c; apply Z.lt_trans].
  induction H as [|a l _ IH Hall]; constructor; [|assumption].
  intros Hin. rewrite Forall_forall in Hall. specialize (Hall a Hin). lia.
Qed.

Lemma group_total_absent (p : Z) (acc : list (Z * Z)) :
  ~ In p (map fst acc) -> group_total p acc = 0.
Proof.
  unfold group_total. induction acc as [|[p' q'] acc IH]; simpl; intros H;
    [reflexivity|].
  destruct (Z.eqb_spec p' p); [exfalso; apply H; now left|].
  apply IH. intros Hin. apply H. now right.
Qed.

Lemma group_total_key (p q : Z) (acc : list (Z * Z)) :
  NoDup (map fst acc) -> In (p, q) acc -> group_total p acc = q.
Proof.
  induction acc as [|[p' q'] acc IH]; simpl; intros Hnd Hin; [contradiction|].
  inversion Hnd as [|? ? Hnotin Hnd']; subst.
  destruct Hin as [E|Hin].
  - inversion E; subst. unfold group_total. simpl. rewrite Z.eqb_refl. simpl.
    fold (group_total p acc). rewrite (group_total_absent p acc Hnotin). lia.
  - unfold group_total. simpl. destruct (Z.eqb_spec p' p) as [e|_].
    + exfalso. apply Hnotin. subst. change p with (fst (p, q)). now apply in_map.
    + now apply IH.
Qed.

Lemma group_fold_sorted (rows : list CartRow) (acc : list (Z * Z)) :
  Sorted Z.lt (map fst acc) ->
  Sorted Z.lt
    (map fst (fold_left (fun a r => group_add (cart_pid r) (cart_qty r) a) rows acc)).
Proof.
  revert acc. induction rows as [|r rows IH]; intros acc H; simpl; [assumption|].
  apply IH. now apply group_add_sorted.
Qed.

Lemma group_fold_keys (rows : list CartRow) (acc : list (Z * Z)) (x : Z) :
  In x (map fst (fold_left (fun a r => group_add (cart_pid r) (cart_qty r) a) rows acc))
  <-> In x (map fst acc) \/ In x (map cart_pid rows).
Proof.
  revert acc. induction rows as [|r rows IH]; intros acc; simpl; [tauto|].
  rewrite IH, group_add_keys. intuition.
Qed.

Lemma group_fold_total (rows : list CartRow) (acc : list (Z * Z)) (x : Z) :
  group_total x (fold_left (fun a r => group_add (cart_pid r) (cart_qty r) a) rows acc)
  = group_total x acc
    + zsum (map cart_qty (filter (fun r => cart_pid r =? x) rows)).
Proof.
  revert acc. induction rows as [|r rows IH]; intros acc; simpl; [lia|].
  rewrite IH, group_add_total, (Z.eqb_sym x).
  destruct (cart_pid r =? x); simpl; lia.
Qed.

Lemma customer_pair_rows (cid p : Z) (rows : list CartRow) :
  filter (fun r => cart_pid r =? p) (filter (fun r => cart_cid r =? cid) rows)
  = filter (is_pair cid p) rows.
Proof. rewrite filter_filter_and. reflexivity. Qed.

Lemma select_cart_grouped_keys (cid : Z) (db : DB) :
  NoDup (map fst (select_cart_grouped cid db)).
Proof.
  apply sorted_keys_NoDup. unfold select_cart_grouped.
  apply group_fold_sorted. constructor.
Qed.

(** The grouped read: one row per product the customer has a cart row for,
    carrying the sum of the quantities of these rows. *)
Lemma select_cart_grouped_spec (cid : Z) (db : DB) (p q : Z) :
  In (p, q) (select_cart_grouped cid db)
  <-> pair_rows cid p db <> [] /\ q = select_cart_total cid p db.
Proof.
  assert (Hkey : In p (map fst (select_cart_grouped cid db))
                 <-> pair_rows cid p db <> []).
  { unfold select_cart_grouped. rewrite group_fold_keys. simpl.
    unfold pair_rows. rewrite <- customer_pair_rows. split.
    - intros [[]|H] E. apply in_map_iff in H. destruct H as (r & Hr & Hin).
      assert (Hf : In r (filter (fun r => cart_pid r =? p)
                           (filter (fun r => cart_cid r =? cid) (cart db)))).
      { apply filter_In. split; [assumption | now apply Z.eqb_eq]. }
      rewrite E in Hf. contradiction.
    - intros H. right.
      destruct (filter (fun r => cart_pid r =? p) _) as [|r l] eqn:E;
        [contradiction|].
      assert (Hf : In r (filter (fun r => cart_pid r =? p)
                           (filter (fun r => cart_cid r =? cid) (cart db))))
        by (rewrite E; now left).
      apply filter_In in Hf. destruct Hf as [Hin He]. apply Z.eqb_eq in He.
      apply in_map_iff. eauto. }
  assert (Htot : group_total p (select_cart_grouped cid db)
                 = select_cart_total cid p db).
  { unfold select_cart_grouped. rewrite group_fold_total.
    unfold select_cart_total. now rewrite customer_pair_rows. }
  pose proof (select_cart_grouped_keys cid db) as Hnd.
  split.
  - intros Hin. split.
    + apply Hkey. change p with (fst (p, q)). now apply in_map.
    + rewrite <- Htot. symmetry. now apply group_total_key.
  - intros [Hne ->]. apply Hkey in Hne. apply in_map_iff in Hne.
    destruct Hne as ([p' q'] & E & Hin). simpl in E. subst p'.
    rewrite <- Htot, (group_total_key p q' _ Hnd Hin). exact Hin.
Qed.

(* ================================================================== *)
(** ** The checkout loop *)

Lemma with_stock_same (P : Product) : with_stock P (stock_count P - 0) = P.
Proof. destruct P. unfold with_stock. simpl. now rewrite Z.sub_0_r. Qed.

Lemma take_stock_pid (p u : Z) (P : Product) : pid (take_stock p u P) = pid P.
Proof. unfold take_stock. now destruct (pid P =? p). Qed.

Lemma take_stock_other (p u : Z) (P : Product) :
  pid P <> p -> take_stock p u P = P.
Proof. unfold take_stock. intros H. now destruct (Z.eqb_spec (pid P) p). Qed.

Lemma find_take_stock_other (p p' u : Z) (l : list Product) :
  p' <> p ->
  find (fun P => pid P =? p') (map (take_stock p u) l)
  = find (fun P => pid P =? p') l.
Proof.
  intros Hne. induction l as [|P l IH]; simpl; [reflexivity|].
  rewrite take_stock_pid.
  destruct (Z.eqb_spec (pid P) p') as [e|_]; [|assumption].
  rewrite take_stock_other by congruence. reflexivity.
Qed.

Lemma committed_lines_products (db db' : DB) (rows : list (Z * Z)) :
  (forall p, In p (map fst rows) -> product_row p db' = product_row p db) ->
  committed_lines db' rows = committed_lines db rows.
Proof.
  induction rows as [|[p q] rows IH]; simpl; intros H; [reflexivity|].
  unfold committed_line. simpl. rewrite (H p (or_introl eq_refl)).
  rewrite IH by (intros; apply H; now right). reflexivity.
Qed.

Lemma committed_lines_pids (db : DB) (rows : list (Z * Z)) (l : Commit) :
  In l (committed_lines db rows) -> In (commit_pid l) (map fst rows).
Proof.
  induction rows as [|[p q] rows IH]; simpl; [tauto|].
  unfold committed_line. simpl.
  destruct (product_row p db) as [P|]; [|auto].
  destruct (_ <=? 0); [auto|].
  intros [<-|H]; [now left | auto].
Qed.

(** A committed line is a grouped cart row whose product exists and of which
    a positive quantity is in stock. *)
Lemma committed_lines_In (db : DB) (rows : list (Z * Z)) (l : Commit) :
  In l (committed_lines db rows) <->
  exists q P,
    In (commit_pid l, q) rows /\ product_row (commit_pid l) db = Some P
    /\ commit_qty l = Z.min q (stock_count P) /\ 0 < commit_qty l
    /\ commit_price l = price P.
Proof.
  induction rows as [|[p q] rows IH]; simpl.
  - split; [tauto | intros (? & ? & [] & _)].
  - unfold committed_line. simpl.
    destruct (product_row p db) as [P|] eqn:EP.
    + destruct (Z.leb_spec (Z.min q (stock_count P)) 0) as [Hle|Hgt].
      * rewrite IH. split.
        -- intros (q' & P' & Hin & H). exists q', P'. tauto.
        -- intros (q' & P' & [E|Hin] & HP & Hq & Hpos & Hpr);
             [|exists q', P'; tauto].
           inversion E; subst. rewrite EP in HP. inversion HP; subst. lia.
      * simpl. rewrite IH. split.
        -- intros [<-|(q' & P' & Hin & H)]; simpl.
           ++ exists q, P. tauto.
           ++ exists q', P'. tauto.
        -- intros (q' & P' & [E|Hin] & HP & Hq & Hpos & Hpr);
             [|right; exists q', P'; tauto].
           left. inversion E; subst. rewrite EP in HP. inversion HP; subst.
           destruct l; simpl in *. now subst.
    + rewrite IH. split.
      * intros (q' & P' & Hin & H). exists q', P'. tauto.
      * intros (q' & P' & [E|Hin] & HP & H); [|exists q', P'; tauto].
        inversion E; subst. congruence.
Qed.

Lemma committed_qty_absent (lines : list Commit) (p : Z) :
  ~ In p (map commit_pid lines) -> committed_qty lines p = 0.
Proof.
  unfold committed_qty. induction lines as [|l lines IH]; simpl; intros H;
    [reflexivity|].
  destruct (Z.eqb_spec (commit_pid l) p); [exfalso; apply H; now left|].
  apply IH. intros Hin. apply H. now right.
Qed.

Lemma after_lines_none (n line_no : Z) (db : DB) : after_lines n line_no [] db = db.
Proof.
  destruct db as [ps ? ? ols ?]. unfold after_lines. simpl. rewrite app_nil_r.
  f_equal. induction ps as [|P ps IH]; simpl; [reflexivity|].
  unfold committed_qty in *. simpl in *. now rewrite with_stock_same, IH.
Qed.

Lemma after_lines_step (n line_no : Z) (l : Commit) (lines : list Commit) (db : DB) :
  ~ In (commit_pid l) (map commit_pid lines) ->
  after_lines n (line_no + 1) lines
    (update_stock (commit_qty l) (commit_pid l)
       (insert_orderline
          (mkOrderLine n line_no (commit_pid l) (commit_qty l) (commit_price l)) db))
  = after_lines n line_no (l :: lines) db.
Proof.
  intros Hnotin. unfold after_lines. simpl. rewrite <- app_assoc. simpl.
  f_equal. rewrite map_map. apply map_ext. intros P.
  unfold take_stock, committed_qty at 2. simpl.
  rewrite (Z.eqb_sym (commit_pid l)).
  destruct (Z.eqb_spec (pid P) (commit_pid l)) as [e|ne].
  - unfold with_stock. simpl. rewrite e.
    rewrite (committed_qty_absent lines _ Hnotin). f_equal. lia.
  - reflexivity.
Qed.

Lemma checkout_lines_eq (n : Z) (rows : list (Z * Z)) (line_no : Z) (c : Conn) :
  NoDup (map fst rows) ->
  checkout_lines n rows line_no c
  = (Return (line_no + Z.of_nat (List.length (committed_lines (working c) rows))),
     mkConn (committed c)
            (after_lines n line_no (committed_lines (working c) rows) (working c))).
Proof.
  revert line_no c. induction rows as [|[p q] rows IH]; intros line_no c Hnd.
  - simpl. rewrite after_lines_none, Z.add_0_r. now destruct c.
  - inversion Hnd as [|? ? Hnotin Hnd']; subst.
    simpl. unfold bind at 1. unfold fetch. unfold committed_line.
    unfold select_price_stock. simpl fst. simpl snd.
    destruct (product_row p (working c)) as [P|] eqn:EP; simpl;
      [|now apply IH].
    destruct (Z.min q (stock_count P) <=? 0) eqn:Emin; [now apply IH|].
    unfold bind, execute. simpl. rewrite IH by assumption. simpl.
    set (l := mkCommit p (Z.min q (stock_count P)) (price P)).
    set (ol := mkOrderLine n line_no p (Z.min q (stock_count P)) (price P)).
    assert (Hlines :
      committed_lines (update_stock (Z.min q (stock_count P)) p
                         (insert_orderline ol (working c))) rows
      = committed_lines (working c) rows).
    { apply committed_lines_products. intros p' Hp'. unfold product_row. simpl.
      apply find_take_stock_other. intros ->. contradiction. }
    rewrite Hlines. f_equal; [f_equal; lia|]. f_equal.
    apply (after_lines_step n line_no l).
    intros Hin. apply in_map_iff in Hin. destruct Hin as (l' & E & Hl').
    apply committed_lines_pids in Hl'. rewrite E in Hl'. contradiction.
Qed.

Lemma pick_ono_free (draws : list Z) (c : Conn) :
  (exists n, In n draws /\ order_exists n (working c) = false) ->
  exists n,
    pick_ono draws c = (Return (Some n), c)
    /\ In n draws /\ order_exists n (working c) = false.
Proof.
  induction draws as [|d draws IH]; intros (n & Hin & Hfree); [contradiction|].
  simpl. unfold bind, fetch.
  destruct (order_exists d (working c)) eqn:E.
  - destruct IH as (m & Hrun & Hm & Hf).
    + exists n. split; [|assumption]. destruct Hin as [->|Hin]; [congruence | assumption].
    + exists m. auto.
  - exists d. auto.
Qed.

Lemma number_lines_lineNo (n line_no : Z) (lines : list Commit) :
  map lineNo (number_lines n line_no lines)
  = map (fun i => line_no + Z.of_nat i) (seq 0 (List.length lines)).
Proof.
  revert line_no. induction lines as [|l lines IH]; intros line_no; simpl;
    [reflexivity|].
  rewrite Z.add_0_r. f_equal. rewrite IH, <- seq_shift, map_map.
  apply map_ext. intros i. lia.
Qed.

Lemma number_lines_fields (n line_no : Z) (lines : list Commit) :
  map (fun ol => (line_ono ol, mkCommit (line_pid ol) (qty ol) (uprice ol)))
      (number_lines n line_no lines)
  = map (fun l => (n, l)) lines.
Proof.
  revert line_no. induction lines as [|[p u pr] lines IH]; intros line_no; simpl;
    [reflexivity|].
  now rewrite IH.
Qed.

Lemma grouped_after_delete (cid : Z) (db : DB) :
  select_cart_grouped cid (delete_cart_customer cid db) = [].
Proof.
  unfold select_cart_grouped. simpl.
  now rewrite (filter_filter_neg (fun r => cart_cid r =? cid)).
Qed.

(** [checkout], given a free draw, in one equation. *)
Lemma checkout_eq (draws : list Z) (cid sessionNo : Z) (shipping_address : text)
    (odate : Z) (db : DB) :
  (exists n, In n draws /\ order_exists n db = false) ->
  exists n,
    In n draws /\ order_exists n db = false
    /\ checkout draws cid sessionNo shipping_address odate db
       = Some (n, delete_cart_customer cid
                    (after_lines n 1
                       (committed_lines db (select_cart_grouped cid db))
                       (insert_order
                          (mkOrder n cid sessionNo odate shipping_address) db))).
Proof.
  intros Hfree.
  destruct (pick_ono_free draws (mkConn db db) Hfree) as (n & Hpick & Hin & Hn).
  simpl in Hn. exists n. split; [assumption|]. split; [assumption|].
  set (o := mkOrder n cid sessionNo odate shipping_address).
  assert (Hlines : committed_lines (insert_order o db) (select_cart_grouped cid db)
                   = committed_lines db (select_cart_grouped cid db)).
  { apply committed_lines_products. reflexivity. }
  unfold checkout, connect, checkout_body.
  unfold bind at 1. unfold fetch at 1. simpl working.
  unfold bind at 1. rewrite Hpick.
  unfold bind at 1. unfold execute at 1. simpl.
  unfold bind at 1.
  rewrite (checkout_lines_eq n _ 1 _ (select_cart_grouped_keys cid db)).
  simpl working. fold o. rewrite Hlines. reflexivity.
Qed.

Lemma pick_ono_reads (draws : list Z) (c : Conn) : snd (pick_ono draws c) = c.
Proof.
  induction draws as [|d draws IH]; simpl; [reflexivity|].
  unfold bind, fetch. destruct (order_exists d (working c)); [exact IH | reflexivity].
Qed.

(* ================================================================== *)
(** ** The cart ledger: specified behaviour *)

(** C10.  [add_to_cart] with a [pid] that no product row carries changes
    nothing and raises nothing: the missing row reads as stock 0, which takes
    the early return, so no cart row is created for a product that does not
    exist. *)
Theorem add_to_cart_absent_product (cid sessionNo p q : Z) (db : DB) :
  ~ In p (map pid (products db)) ->
  add_to_cart cid sessionNo p q db = (Return tt, db).
Proof.
  intros H. rewrite add_to_cart_eq, (current_stock_absent _ _ H). reflexivity.
Qed.

Lemma add_to_cart_absent_product_witness :
  ~ In 9999 (map pid (products demo_db))
  /\ add_to_cart 1001 2 9999 3 demo_db = (Return tt, demo_db).
Proof.
  assert (H : ~ In 9999 (map pid (products demo_db))).
  { simpl. intros [H|[H|[H|[H|[]]]]]; discriminate H. }
  split; [exact H | exact (add_to_cart_absent_product 1001 2 9999 3 demo_db H)].
Defined.

(** C4.  [update_cart_qty] raises exactly when [q < 0], and then leaves the
    state as it was.  With [q = 0] it deletes the rows of the pair, whether
    or not there were any, and doing it again changes nothing.  With [q > 0]
    it never raises: the rows of the pair are replaced by the single row
    [(cid, sessionNo, p, min q stock)], every other row and table is kept. *)
Theorem update_cart_qty_cases (cid sessionNo p q : Z) (db : DB) :
  ((exists e, fst (update_cart_qty cid sessionNo p q db) = Raise e) <-> q < 0)
  /\ (q < 0 -> snd (update_cart_qty cid sessionNo p q db) = db)
  /\ (q = 0 ->
      exists db',
        update_cart_qty cid sessionNo p q db = (Return tt, db')
        /\ pair_rows cid p db' = []
        /\ other_rows cid p db' = other_rows cid p db
        /\ same_but_cart db db'
        /\ update_cart_qty cid sessionNo p q db' = (Return tt, db'))
  /\ (0 < q ->
      exists db',
        update_cart_qty cid sessionNo p q db = (Return tt, db')
        /\ pair_rows cid p db'
           = [mkCartRow cid sessionNo p (Z.min q (current_stock p db))]
        /\ other_rows cid p db' = other_rows cid p db
        /\ same_but_cart db db').
Proof.
  rewrite update_cart_qty_eq.
  destruct (Z.ltb_spec q 0) as [Hneg|Hnn]; simpl.
  - split; [split; [intros _; assumption | intros _; eauto]|].
    split; [reflexivity|]. split; intros; lia.
  - destruct (Z.eqb_spec q 0) as [Hz|Hnz]; simpl.
    + split; [split; [intros [e He]; discriminate He | lia]|].
      split; [lia|]. split; [|lia].
      intros _. exists (delete_cart_pair cid p db).
      split; [reflexivity|]. split; [apply delete_pair_rows|].
      split; [unfold other_rows; simpl; apply filter_neg_idem|].
      split; [repeat split|].
      rewrite update_cart_qty_eq. subst q. simpl. f_equal.
      unfold delete_cart_pair, set_cart. simpl. now rewrite filter_neg_idem.
    + split; [split; [intros [e He]; discriminate He | lia]|].
      split; [lia|]. split; [lia|].
      intros _. eexists. split; [reflexivity|].
      destruct (replace_pair_rows cid sessionNo p
                  (Z.min q (current_stock p db)) db) as (H1 & H2 & _ & H4).
      auto.
Qed.

Lemma update_cart_qty_cases_witness :
  fst (update_cart_qty 1001 2 2003 (-1) demo_db)
    = Raise (ValueError "Quantity cannot be negative.")
  /\ snd (update_cart_qty 1001 2 2003 (-1) demo_db) = demo_db
  /\ (exists db',
        update_cart_qty 1001 2 2003 10 demo_db = (Return tt, db')
        /\ pair_rows 1001 2003 db' = [mkCartRow 1001 2 2003 2]).
Proof.
  split; [reflexivity|].
  destruct (update_cart_qty_cases 1001 2 2003 (-1) demo_db) as (_ & Hneg & _).
  split; [apply Hneg; lia|].
  destruct (update_cart_qty_cases 1001 2 2003 10 demo_db) as (_ & _ & _ & Hpos).
  destruct (Hpos ltac:(lia)) as (db' & Hrun & Hrows & _).
  exists db'. split; [exact Hrun | exact Hrows].
Defined.

(** C3.  [set_cart_qty_if_in_stock] answers [False] and changes nothing when
    [q < 0] or [q] is above the stock it reads.  Otherwise it answers [True]
    after the consolidating replace: the pair has the single row
    [(cid, sessionNo, p, q)], its ledger quantity is exactly [q], all else is
    kept, and for [q > 0] the state is the one [update_cart_qty] reaches. *)
Theorem set_cart_qty_if_in_stock_cases (cid sessionNo p q : Z) (db : DB) :
  (q < 0 \/ current_stock p db < q ->
   set_cart_qty_if_in_stock cid sessionNo p q db = (Return false, db))
  /\ (0 <= q <= current_stock p db ->
      exists db',
        set_cart_qty_if_in_stock cid sessionNo p q db = (Return true, db')
        /\ pair_rows cid p db' = [mkCartRow cid sessionNo p q]
        /\ select_cart_total cid p db' = q
        /\ other_rows cid p db' = other_rows cid p db
        /\ same_but_cart db db'
        /\ (0 < q -> update_cart_qty cid sessionNo p q db = (Return tt, db'))).
Proof.
  rewrite set_cart_qty_if_in_stock_eq. split.
  - intros H.
    destruct (Z.ltb_spec q 0), (Z.ltb_spec (current_stock p db) q);
      simpl; try reflexivity; lia.
  - intros [H0 Hs].
    destruct (Z.ltb_spec q 0), (Z.ltb_spec (current_stock p db) q);
      simpl; try lia.
    eexists. split; [reflexivity|].
    destruct (replace_pair_rows cid sessionNo p q db) as (R1 & R2 & R3 & R4).
    repeat (split; [assumption|]).
    intros Hq. rewrite update_cart_qty_eq.
    destruct (Z.ltb_spec q 0); [lia|].
    destruct (Z.eqb_spec q 0); [lia|].
    now rewrite Z.min_l by lia.
Qed.

Lemma set_cart_qty_if_in_stock_cases_witness :
  set_cart_qty_if_in_stock 1001 2 2001 (-5) demo_db = (Return false, demo_db)
  /\ set_cart_qty_if_in_stock 1001 2 2001 10000 demo_db = (Return false, demo_db)
  /\ (exists db',
        set_cart_qty_if_in_stock 1001 2 2001 2 demo_db = (Return true, db')
        /\ select_cart_total 1001 2001 db' = 2).
Proof.
  destruct (set_cart_qty_if_in_stock_cases 1001 2 2001 (-5) demo_db) as [Hno _].
  split; [apply Hno; left; lia|].
  destruct (set_cart_qty_if_in_stock_cases 1001 2 2001 10000 demo_db) as [Hno' _].
  split; [apply Hno'; right; vm_compute; reflexivity|].
  destruct (set_cart_qty_if_in_stock_cases 1001 2 2001 2 demo_db) as [_ Hyes].
  destruct Hyes as (db' & Hrun & _ & Htot & _).
  { vm_compute. split; intros H; discriminate H. }
  exists db'. split; [exact Hrun | exact Htot].
Defined.

(** C2.  Over a catalogue keyed by [pid], every finite sequence of
    [add_to_cart] and [update_cart_qty] calls keeps the ledger consolidated
    and under the stock: started from a ledger that is (the empty one is),
    each pair ends with at most one row, no row above its product's
    [stock_count], and so the quantity the ledger holds for a pair never
    exceeds the stock of its product.  And from any state at all, a call that
    writes (a positive addition to a product in stock, a positive set) leaves
    the pair with exactly one row, capped at the stock the call read. *)
Theorem cart_ledger_invariant :
  (forall calls db,
     pk_products db -> ledger_ok db ->
     ledger_ok (run_calls calls db)
     /\ forall cid P, In P (products (run_calls calls db)) -> 0 <= stock_count P ->
          (List.length (pair_rows cid (pid P) (run_calls calls db)) <= 1)%nat
          /\ select_cart_total cid (pid P) (run_calls calls db) <= stock_count P)
  /\ (forall db, cart db = [] -> ledger_ok db)
  /\ (forall cid s p q db,
        0 < q -> 0 < current_stock p db ->
        pair_rows cid p (run_call db (AddQuantity cid s p q))
        = [mkCartRow cid s p
             (Z.min (select_cart_total cid p db + q) (current_stock p db))])
  /\ (forall cid s p q db,
        0 < q ->
        pair_rows cid p (run_call db (SetQuantity cid s p q))
        = [mkCartRow cid s p (Z.min q (current_stock p db))]).
Proof.
  split; [|split; [|split]].
  - intros calls db Hpk Hok.
    pose proof (run_calls_ledger_ok calls db Hpk Hok) as Hok'.
    split; [assumption|].
    intros cid P HP Hpos. split.
    + apply Hok'.
    + now apply ledger_ok_total.
  - intros db. apply ledger_ok_empty.
  - intros cid s p q db Hq Hs. simpl. rewrite add_to_cart_eq.
    destruct (Z.leb_spec (current_stock p db) 0); [lia|].
    destruct (Z.leb_spec q 0); [lia|]. simpl.
    apply (replace_pair_rows cid s p _ db).
  - intros cid s p q db Hq. simpl. rewrite update_cart_qty_eq.
    destruct (Z.ltb_spec q 0); [lia|].
    destruct (Z.eqb_spec q 0); [lia|]. simpl.
    apply (replace_pair_rows cid s p _ db).
Qed.

Lemma cart_ledger_invariant_witness :
  let calls := [AddQuantity 1001 2 2003 10; SetQuantity 1001 3 2002 100;
                AddQuantity 1001 4 2003 1; SetQuantity 1001 4 2001 (-1)] in
  ledger_ok (run_calls calls demo_db)
  /\ cart (run_calls calls demo_db)
     = [mkCartRow 1001 3 2002 5; mkCartRow 1001 4 2003 2].
Proof.
  intros calls. split; [|reflexivity].
  destruct cart_ledger_invariant as (Hinv & Hempty & _).
  refine (proj1 (Hinv calls demo_db _ _)).
  - exact demo_db_key.
  - apply Hempty. reflexivity.
Defined.

(** C5 (the code departs from it).  A positive request capped to 0 by
    [update_cart_qty], and a request of 0 accepted by
    [set_cart_qty_if_in_stock], each leave a persisted row of quantity 0. *)
Theorem cart_rows_of_quantity_zero :
  update_cart_qty 1001 2 2006 3 demo_db
    = (Return tt, set_cart (fun _ => [mkCartRow 1001 2 2006 0]) demo_db)
  /\ set_cart_qty_if_in_stock 1001 2 2001 0 demo_db
    = (Return true, set_cart (fun _ => [mkCartRow 1001 2 2001 0]) demo_db).
Proof. split; reflexivity. Qed.

(* ================================================================== *)
(** ** Product search: specified behaviour *)










(* ================================================================== *)
(** ** Checkout: specified behaviour *)

(** C1.  Given a draw that is not an order number yet, [checkout] returns
    such a number [n] and persists: exactly one new order header
    [(n, cid, sessionNo, odate, shipping_address)], also for an empty cart,
    which then gets no line; one order line per grouped cart row, in the
    order of the grouped read, whose product exists and for which
    [min cartQty stock] is positive, numbered 1, 2, ... without gap, with
    that minimum as quantity and the product's price as unit price; every
    product's stock less the quantity committed for it; and the cart without
    any row of [cid], so that [list_cart] is empty afterwards. *)
Theorem checkout_result (draws : list Z) (cid sessionNo : Z)
    (shipping_address : text) (odate : Z) (db : DB) :
  (exists n, In n draws /\ order_exists n db = false) ->
  let lines := committed_lines db (select_cart_grouped cid db) in
  exists n db',
    checkout draws cid sessionNo shipping_address odate db = Some (n, db')
    /\ In n draws /\ order_exists n db = false
    /\ orders db' = orders db ++ [mkOrder n cid sessionNo odate shipping_address]
    /\ orderlines db' = orderlines db ++ number_lines n 1 lines
    /\ map lineNo (number_lines n 1 lines)
       = map Z.of_nat (seq 1 (List.length lines))
    /\ map (fun ol => (line_ono ol, mkCommit (line_pid ol) (qty ol) (uprice ol)))
           (number_lines n 1 lines)
       = map (fun l => (n, l)) lines
    /\ (forall l, In l lines <->
          exists P,
            pair_rows cid (commit_pid l) db <> []
            /\ product_row (commit_pid l) db = Some P
            /\ commit_qty l
               = Z.min (select_cart_total cid (commit_pid l) db) (stock_count P)
            /\ 0 < commit_qty l
            /\ commit_price l = price P)
    /\ (select_cart_grouped cid db = [] -> orderlines db' = orderlines db)
    /\ products db'
       = map (fun P => with_stock P (stock_count P - committed_qty lines (pid P)))
             (products db)
    /\ cart db' = filter (fun r => negb (cart_cid r =? cid)) (cart db)
    /\ search db' = search db
    /\ list_cart cid sessionNo db' = (Return [], db').
Proof.
  intros Hfree lines.
  destruct (checkout_eq draws cid sessionNo shipping_address odate db Hfree)
    as (n & Hin & Hn & Hrun).
  fold lines in Hrun.
  set (o := mkOrder n cid sessionNo odate shipping_address) in *.
  exists n. eexists. split; [exact Hrun|].
  split; [assumption|]. split; [assumption|]. simpl.
  split; [reflexivity|]. split; [reflexivity|].
  split.
  { rewrite number_lines_lineNo, <- seq_shift, map_map.
    apply map_ext. intros i. lia. }
  split; [apply number_lines_fields|].
  split.
  { intros l. unfold lines. rewrite committed_lines_In. split.
    - intros (q & P & Hq & HP & Hmin & Hpos & Hpr).
      apply select_cart_grouped_spec in Hq. destruct Hq as [Hne ->].
      exists P. tauto.
    - intros (P & Hne & HP & Hmin & Hpos & Hpr).
      exists (select_cart_total cid (commit_pid l) db), P.
      split; [apply select_cart_grouped_spec; tauto | tauto]. }
  split.
  { intros E. unfold lines. rewrite E. simpl. apply app_nil_r. }
  split; [reflexivity|]. split; [reflexivity|]. split; [reflexivity|].
  unfold list_cart, connect, bind, fetch, ret. simpl working.
  change (select_cart_grouped cid
            (set_cart (filter (fun r => negb (cart_cid r =? cid)))
               (after_lines n 1 lines (insert_order o db))))
    with (select_cart_grouped cid
            (delete_cart_customer cid (after_lines n 1 lines (insert_order o db)))).
  rewrite grouped_after_delete. reflexivity.
Qed.

Lemma checkout_result_witness :
  exists db',
    checkout [100001; 555555] 1002 3 (str "Somewhere") 20251102 demo_cart_db
    = Some (555555, db')
    /\ orders db' = orders demo_cart_db
                    ++ [mkOrder 555555 1002 3 20251102 (str "Somewhere")]
    /\ orderlines db' = orderlines demo_cart_db
                        ++ [mkOrderLine 555555 1 2001 4 (25 # 1);
                            mkOrderLine 555555 2 2003 2 (10 # 1)]
    /\ map (fun P => (pid P, stock_count P)) (products db')
       = [(2001, 6); (2002, 5); (2003, 0); (2006, 0)]
    /\ cart db' = [mkCartRow 1001 7 2001 1]
    /\ list_cart 1002 3 db' = (Return [], db').
Proof.
  destruct (checkout_result [100001; 555555] 1002 3 (str "Somewhere") 20251102
              demo_cart_db)
    as (n & db' & Hrun & _ & _ & Ho & Hl & _ & _ & _ & _ & Hp & Hc & _ & Hlist).
  - exists 555555. split; [simpl; auto | reflexivity].
  - assert (Hn : n = 555555).
    { assert (E : option_map fst
                    (checkout [100001; 555555] 1002 3 (str "Somewhere") 20251102
                       demo_cart_db) = Some 555555) by reflexivity.
      rewrite Hrun in E. simpl in E. now inversion E. }
    subst n. exists db'.
    split; [exact Hrun|]. split; [exact Ho|]. split; [exact Hl|].
    split; [rewrite Hp; reflexivity|]. split; [rewrite Hc; reflexivity|].
    exact Hlist.
Defined.

(* ================================================================== *)
(** ** Further properties of the cart ledger and of the search *)

Lemma filter_neg_none {A} (f : A -> bool) (l : list A) :
  filter f l = [] -> filter (fun x => negb (f x)) l = l.
Proof.
  induction l as [|x l IH]; simpl; [reflexivity|].
  destruct (f x); simpl; [discriminate|]. intros H. now rewrite IH.
Qed.

Lemma rows_positive_total (cid p : Z) (db : DB) :
  rows_positive db -> 0 <= select_cart_total cid p db.
Proof.
  unfold rows_positive, select_cart_total. intros H.
  induction H as [|r l Hr _ IH]; simpl; [lia|].
  destruct (is_pair cid p r); simpl; lia.
Qed.

Lemma rows_positive_filter (f : CartRow -> bool) (db : DB) :
  rows_positive db -> rows_positive (set_cart (filter f) db).
Proof.
  unfold rows_positive. simpl. intros H. rewrite Forall_forall in *.
  intros r Hr. apply filter_In in Hr. now apply H.
Qed.

(** X1.  [list_cart] reads without writing and returns one item per product the
    customer has rows for, with the sum of their quantities and the session
    number it was given. *)
Theorem list_cart_groups (cid sessionNo : Z) (db : DB) :
  exists items,
    list_cart cid sessionNo db = (Return items, db)
    /\ NoDup (map item_pid items)
    /\ forall it, In it items <->
         item_cid it = cid /\ item_sessionNo it = sessionNo
         /\ pair_rows cid (item_pid it) db <> []
         /\ item_qty it = select_cart_total cid (item_pid it) db.
Proof.
  eexists. split; [reflexivity|]. split.
  - rewrite map_map. simpl. apply select_cart_grouped_keys.
  - intros it. rewrite in_map_iff. split.
    + intros ([p q] & <- & Hin). simpl.
      apply select_cart_grouped_spec in Hin. tauto.
    + intros (Hc & Hs & Hne & Hq). exists (item_pid it, item_qty it). split.
      * destruct it; simpl in *. now subst.
      * apply select_cart_grouped_spec. tauto.
Qed.

(** X2.  [remove_from_cart] deletes the rows of the pair and nothing else; the
    pair having no row is no error and changes nothing. *)
Theorem remove_from_cart_deletes_pair (cid sessionNo p : Z) (db : DB) :
  exists db',
    remove_from_cart cid sessionNo p db = (Return tt, db')
    /\ pair_rows cid p db' = []
    /\ other_rows cid p db' = other_rows cid p db
    /\ same_but_cart db db'
    /\ (pair_rows cid p db = [] -> db' = db).
Proof.
  exists (delete_cart_pair cid p db). split; [reflexivity|].
  split; [apply delete_pair_rows|].
  split; [unfold other_rows; simpl; apply filter_neg_idem|].
  split; [repeat split|].
  unfold pair_rows, delete_cart_pair, set_cart. intros H.
  rewrite (filter_neg_none _ _ H). now destruct db.
Qed.

(** X3.  [clear_cart] deletes every row of the customer, whatever the product and
    the session, and nothing else. *)
Theorem clear_cart_deletes_customer (cid sessionNo : Z) (db : DB) :
  exists db',
    clear_cart cid sessionNo db = (Return tt, db')
    /\ (forall r, In r (cart db') <-> In r (cart db) /\ cart_cid r <> cid)
    /\ same_but_cart db db'
    /\ list_cart cid sessionNo db' = (Return [], db').
Proof.
  exists (delete_cart_customer cid db). split; [reflexivity|]. split; [|split].
  - intros r. simpl. rewrite filter_In, negb_true_iff, Z.eqb_neq. reflexivity.
  - repeat split.
  - unfold list_cart, connect, bind, fetch, ret. simpl working.
    now rewrite grouped_after_delete.
Qed.



(** X5.  The writers other than the two of C5 keep every cart row positive:
    [add_to_cart] writes only a positive capped total, and
    [remove_from_cart], [clear_cart] and [checkout] only delete rows. *)
Theorem positive_rows_kept (db : DB) :
  rows_positive db ->
  (forall cid s p q, rows_positive (snd (add_to_cart cid s p q db)))
  /\ (forall cid s p, rows_positive (snd (remove_from_cart cid s p db)))
  /\ (forall cid s, rows_positive (snd (clear_cart cid s db)))
  /\ (forall draws cid s addr odate n db',
        checkout draws cid s addr odate db = Some (n, db') -> rows_positive db').
Proof.
  intros Hpos. split; [|split; [|split]].
  - intros cid s p q. rewrite add_to_cart_eq.
    destruct (Z.leb_spec (current_stock p db) 0); simpl; [assumption|].
    destruct (Z.leb_spec q 0); simpl; [assumption|].
    unfold rows_positive. simpl. apply Forall_app. split.
    + apply (rows_positive_filter _ db Hpos).
    + constructor; [|constructor]. simpl.
      pose proof (rows_positive_total cid p db Hpos). lia.
  - intros cid s p. apply (rows_positive_filter _ db Hpos).
  - intros cid s. apply (rows_positive_filter _ db Hpos).
  - intros draws cid s addr odate n db' Hrun.
    unfold checkout in Hrun.
    destruct (connect (checkout_body draws cid s addr odate) db)
      as [[[m|]|e] db''] eqn:E; try discriminate Hrun.
    inversion Hrun; subst m db''. clear Hrun.
    unfold connect, checkout_body in E.
    unfold bind at 1 in E. unfold fetch at 1 in E. simpl working in E.
    unfold bind at 1 in E.
    destruct (pick_ono draws (mkConn db db)) as [[[k|]|e] c] eqn:Ep;
      try discriminate E.
    assert (Hc : c = mkConn db db).
    { pose proof (pick_ono_reads draws (mkConn db db)) as H.
      now rewrite Ep in H. }
    subst c.
    unfold bind at 1 in E. unfold execute at 1 in E. simpl in E.
    unfold bind at 1 in E.
    rewrite (checkout_lines_eq k _ 1 _ (select_cart_grouped_keys cid db)) in E.
    unfold bind, execute, commit, ret in E. simpl in E.
    inversion E; subst. unfold rows_positive. simpl.
    apply Forall_forall. intros r Hr. apply filter_In in Hr.
    destruct Hr as [Hr _]. revert r Hr. apply Forall_forall. exact Hpos.
Qed.

Lemma positive_rows_kept_witness :
  rows_positive (snd (add_to_cart 1002 5 2003 7 demo_cart_db))
  /\ cart (snd (add_to_cart 1002 5 2003 7 demo_cart_db))
     = [mkCartRow 1002 1 2006 1; mkCartRow 1001 7 2001 1;
        mkCartRow 1002 2 4242 3; mkCartRow 1002 2 2001 4;
        mkCartRow 1002 5 2003 2].
Proof.
  split; [|reflexivity].
  refine (proj1 (positive_rows_kept demo_cart_db _) 1002 5 2003 7).
  unfold rows_positive. simpl. repeat constructor.
Defined.

(* ================================================================== *)
(** ** The catalogue: lookups and updates *)

Lemma update_product_price_stock_eq (p : Z) (new_price : option Q)
    (new_stock_count : option Z) (db : DB) :
  update_product_price_stock p new_price new_stock_count db =
  match new_price, new_stock_count with
  | None, None => (Return false, db)
  | _, _ =>
      match product_row p db with
      | None => (Return false, db)
      | Some P =>
          (Return (0 <? rows_with_pid p db)%nat,
           update_price_stock (or_current new_price (price P))
             (or_current new_stock_count (stock_count P)) p db)
      end
  end.
Proof.
  unfold update_product_price_stock, connect, bind, fetch, execute, commit, ret,
    select_price_stock.
  destruct new_price, new_stock_count; simpl;
    try reflexivity; destruct (product_row p db); reflexivity.
Qed.

Lemma rows_with_pid_found (p : Z) (P : Product) (db : DB) :
  product_row p db = Some P -> (0 <? rows_with_pid p db)%nat = true.
Proof.
  intros H. apply find_pid_some in H. destruct H as [Hin Hp].
  unfold rows_with_pid. apply Nat.ltb_lt.
  assert (Hf : In P (filter (fun P' => pid P' =? p) (products db))).
  { apply filter_In. split; [assumption | now apply Z.eqb_eq]. }
  destruct (filter _ (products db)); [contradiction | simpl; lia].
Qed.

Lemma product_row_absent_iff (p : Z) (db : DB) :
  product_row p db = None <-> ~ In p (map pid (products db)).
Proof.
  split.
  - intros H Hin. apply in_map_iff in Hin. destruct Hin as (P & E & HP).
    apply (find_none _ _ H) in HP. rewrite E, Z.eqb_refl in HP. discriminate.
  - apply find_pid_absent.
Qed.

Lemma set_price_stock_pid (pr : Q) (s p : Z) (P : Product) :
  pid (set_price_stock pr s p P) = pid P.
Proof. unfold set_price_stock. now destruct (pid P =? p). Qed.

Lemma set_price_stock_other (pr : Q) (s p : Z) (P : Product) :
  pid P <> p -> set_price_stock pr s p P = P.
Proof. unfold set_price_stock. intros H. now destruct (Z.eqb_spec (pid P) p). Qed.

Lemma set_price_stock_same (pr : Q) (s p : Z) (P : Product) :
  pid P = p ->
  set_price_stock pr s p P
  = mkProduct (pid P) (name P) (category P) pr s (descr P).
Proof. unfold set_price_stock. intros H. now destruct (Z.eqb_spec (pid P) p). Qed.

Lemma find_set_price_stock_same (pr : Q) (s p : Z) (l : list Product) :
  find (fun P => pid P =? p) (map (set_price_stock pr s p) l)
  = option_map (fun P => mkProduct (pid P) (name P) (category P) pr s (descr P))
               (find (fun P => pid P =? p) l).
Proof.
  induction l as [|P l IH]; simpl; [reflexivity|].
  rewrite set_price_stock_pid.
  destruct (Z.eqb_spec (pid P) p) as [e|ne]; [|exact IH].
  simpl. now rewrite set_price_stock_same.
Qed.

Lemma find_set_price_stock_other (pr : Q) (s p p' : Z) (l : list Product) :
  p' <> p ->
  find (fun P => pid P =? p') (map (set_price_stock pr s p) l)
  = find (fun P => pid P =? p') l.
Proof.
  intros Hne. induction l as [|P l IH]; simpl; [reflexivity|].
  rewrite set_price_stock_pid.
  destruct (Z.eqb_spec (pid P) p') as [e|ne]; [|exact IH].
  rewrite set_price_stock_other by congruence. reflexivity.
Qed.

Lemma update_price_stock_applied (pr : Q) (s p : Z) (P : Product) (db : DB) :
  product_row p db = Some P ->
  let db' := update_price_stock pr s p db in
  fst (get_product p db')
  = Return (Some (mkProduct (pid P) (name P) (category P) pr s (descr P)))
  /\ (forall p', p' <> p -> fst (get_product p' db') = fst (get_product p' db))
  /\ map pid (products db') = map pid (products db)
  /\ cart db' = cart db /\ orders db' = orders db
  /\ orderlines db' = orderlines db /\ search db' = search db.
Proof.
  intros EP db'. unfold get_product, connect, bind, fetch, ret. simpl.
  unfold product_row in *. simpl. split; [|split; [|split]].
  - now rewrite find_set_price_stock_same, EP.
  - intros p' Hne. now rewrite find_set_price_stock_other.
  - rewrite map_map. apply map_ext. intros. apply set_price_stock_pid.
  - repeat split.
Qed.

(** X6.  [update_product_price_stock] answers [True] exactly when a value is
    given and the product exists, and [False] without any change otherwise.
    After [True], [get_product] returns the product with the given values in
    place of the old ones and the other fields as they were; every other
    product, the pids and the other tables are untouched. *)
Theorem update_product_price_stock_result (p : Z) (new_price : option Q)
    (new_stock_count : option Z) (db : DB) :
  exists ok db',
    update_product_price_stock p new_price new_stock_count db = (Return ok, db')
    /\ (ok = true <->
        (new_price <> None \/ new_stock_count <> None)
        /\ In p (map pid (products db)))
    /\ (ok = false -> db' = db)
    /\ (ok = true ->
        forall P, fst (get_product p db) = Return (Some P) ->
          fst (get_product p db')
          = Return (Some (mkProduct (pid P) (name P) (category P)
                            (or_current new_price (price P))
                            (or_current new_stock_count (stock_count P))
                            (descr P))))
    /\ (forall p', p' <> p -> fst (get_product p' db') = fst (get_product p' db))
    /\ map pid (products db') = map pid (products db)
    /\ cart db' = cart db /\ orders db' = orders db
    /\ orderlines db' = orderlines db /\ search db' = search db.
Proof.
  rewrite update_product_price_stock_eq.
  assert (Hfalse :
    (new_price = None /\ new_stock_count = None) \/ product_row p db = None ->
    exists ok db',
      (Return false, db) = (Return ok, db')
      /\ (ok = true <->
          (new_price <> None \/ new_stock_count <> None)
          /\ In p (map pid (products db)))
      /\ (ok = false -> db' = db)
      /\ (ok = true ->
          forall P, fst (get_product p db) = Return (Some P) ->
            fst (get_product p db')
            = Return (Some (mkProduct (pid P) (name P) (category P)
                              (or_current new_price (price P))
                              (or_current new_stock_count (stock_count P))
                              (descr P))))
      /\ (forall p', p' <> p -> fst (get_product p' db') = fst (get_product p' db))
      /\ map pid (products db') = map pid (products db)
      /\ cart db' = cart db /\ orders db' = orders db
      /\ orderlines db' = orderlines db /\ search db' = search db).
  { intros Hwhy. exists false, db. split; [reflexivity|].
    split.
    - split; [discriminate|]. intros [Hgiven Hin].
      destruct Hwhy as [[-> ->]|Habs].
      + destruct Hgiven as [H|H]; contradiction.
      + apply product_row_absent_iff in Habs. contradiction.
    - repeat split; try reflexivity. discriminate. }
  destruct (product_row p db) as [P|] eqn:EP.
  - assert (Hin : In p (map pid (products db))).
    { apply find_pid_some in EP. destruct EP as [Hin <-]. now apply in_map. }
    assert (Htrue : new_price <> None \/ new_stock_count <> None ->
      exists ok db',
        (Return (0 <? rows_with_pid p db)%nat,
         update_price_stock (or_current new_price (price P))
           (or_current new_stock_count (stock_count P)) p db) = (Return ok, db')
        /\ (ok = true <->
            (new_price <> None \/ new_stock_count <> None)
            /\ In p (map pid (products db)))
        /\ (ok = false -> db' = db)
        /\ (ok = true ->
            forall P, fst (get_product p db) = Return (Some P) ->
              fst (get_product p db')
              = Return (Some (mkProduct (pid P) (name P) (category P)
                                (or_current new_price (price P))
                                (or_current new_stock_count (stock_count P))
                                (descr P))))
        /\ (forall p', p' <> p ->
              fst (get_product p' db') = fst (get_product p' db))
        /\ map pid (products db') = map pid (products db)
        /\ cart db' = cart db /\ orders db' = orders db
        /\ orderlines db' = orderlines db /\ search db' = search db).
    { intros Hgiven. rewrite (rows_with_pid_found p P db EP).
      eexists. eexists. split; [reflexivity|].
      destruct (update_price_stock_applied
                  (or_current new_price (price P))
                  (or_current new_stock_count (stock_count P)) p P db EP)
        as (Hget & Hother & Hpids & Hrest).
      split; [tauto|]. split; [discriminate|].
      split; [|split; [exact Hother | split; [exact Hpids | exact Hrest]]].
      intros _ P' HP'. unfold get_product, connect, bind, fetch, ret in HP'.
      simpl in HP'. rewrite EP in HP'. inversion HP'; subst P'. exact Hget. }
    destruct new_price as [np|], new_stock_count as [ns|].
    + apply Htrue. left. discriminate.
    + apply Htrue. left. discriminate.
    + apply Htrue. right. discriminate.
    + apply Hfalse. left. split; reflexivity.
  - assert (E : match new_price, new_stock_count with
                | None, None => (Return false, db)
                | _, _ => (Return false, db)
                end = (Return false, db))
      by (destruct new_price, new_stock_count; reflexivity).
    rewrite E. apply Hfalse. now right.
Qed.

(** X7.  The three lookups agree on whether a product is there, read the same row
    and change nothing: the row is [None] exactly for a pid that no product
    carries. *)
Theorem catalog_lookups_agree (p : Z) (db : DB) :
  exists row,
    get_product p db = (Return row, db)
    /\ product_exists p db
       = (Return (match row with Some _ => true | None => false end), db)
    /\ product_stock p db = (Return (option_map stock_count row), db)
    /\ (row = None <-> ~ In p (map pid (products db)))
    /\ (forall P, row = Some P -> In P (products db) /\ pid P = p)
    /\ (pk_products db -> forall P, In P (products db) -> pid P = p -> row = Some P).
Proof.
  exists (product_row p db). split; [reflexivity|]. split; [reflexivity|].
  split; [reflexivity|]. split; [apply product_row_absent_iff|].
  split; [intros P; apply find_pid_some|].
  intros Hpk P HP <-. now apply find_pid_key.
Qed.

Lemma current_stock_updated (p s : Z) (pr : Q) (db : DB) :
  In p (map pid (products db)) ->
  current_stock p (update_price_stock pr s p db) = s.
Proof.
  intros Hin. unfold current_stock, select_stock, product_row. simpl.
  rewrite find_set_price_stock_same.
  destruct (find (fun P => pid P =? p) (products db)) eqn:E; [reflexivity|].
  exfalso. now apply (product_row_absent_iff p db).
Qed.

(** X8.  A cart write after a stock update caps at the new stock: with the stock
    of an existing product set to [s], [update_cart_qty] with [q > 0] leaves
    the ledger at [min q s], and [add_to_cart] with [q > 0] at
    [min (old + q) s] when [s > 0] and does nothing when [s <= 0].  The
    stock update itself leaves the cart as it is. *)
Theorem cart_caps_at_updated_stock (p s : Z) (new_price : option Q)
    (cid sessionNo q : Z) (db : DB) :
  In p (map pid (products db)) -> 0 < q ->
  let db1 := snd (update_product_price_stock p new_price (Some s) db) in
  current_stock p db1 = s
  /\ cart db1 = cart db
  /\ select_cart_total cid p (snd (update_cart_qty cid sessionNo p q db1))
     = Z.min q s
  /\ (0 < s ->
      select_cart_total cid p (snd (add_to_cart cid sessionNo p q db1))
      = Z.min (select_cart_total cid p db + q) s)
  /\ (s <= 0 -> snd (add_to_cart cid sessionNo p q db1) = db1).
Proof.
  intros Hin Hq db1.
  assert (Hdb1 : exists pr, db1 = update_price_stock pr s p db).
  { unfold db1. rewrite update_product_price_stock_eq.
    destruct (product_row p db) as [P|] eqn:EP.
    - destruct new_price; simpl; eexists; reflexivity.
    - exfalso. now apply (product_row_absent_iff p db). }
  destruct Hdb1 as (pr & Hdb1).
  assert (Hs : current_stock p db1 = s)
    by (rewrite Hdb1; now apply current_stock_updated).
  assert (Hc : cart db1 = cart db) by (rewrite Hdb1; reflexivity).
  assert (Ht : select_cart_total cid p db1 = select_cart_total cid p db)
    by (unfold select_cart_total; now rewrite Hc).
  split; [exact Hs|]. split; [exact Hc|]. split; [|split].
  - rewrite update_cart_qty_eq.
    destruct (Z.ltb_spec q 0); [lia|]. destruct (Z.eqb_spec q 0); [lia|].
    simpl. rewrite Hs.
    now destruct (replace_pair_rows cid sessionNo p (Z.min q s) db1)
      as (_ & _ & H' & _).
  - intros Hpos. rewrite add_to_cart_eq, Hs, Ht.
    destruct (Z.leb_spec s 0); [lia|]. destruct (Z.leb_spec q 0); [lia|].
    simpl.
    now destruct (replace_pair_rows cid sessionNo p
                    (Z.min (select_cart_total cid p db + q) s) db1)
      as (_ & _ & H' & _).
  - intros Hle. rewrite add_to_cart_eq, Hs.
    destruct (Z.leb_spec s 0); [reflexivity | lia].
Qed.

Lemma cart_caps_at_updated_stock_witness :
  let db1 := snd (update_product_price_stock 2003 None (Some 2) demo_cart_db) in
  select_cart_total 1001 2003 (snd (add_to_cart 1001 2 2003 10 db1)) = 2
  /\ select_cart_total 1001 2003 (snd (update_cart_qty 1001 2 2003 100 db1)) = 2.
Proof.
  destruct (cart_caps_at_updated_stock 2003 2 None 1001 2 10 demo_cart_db)
    as (_ & _ & _ & Hadd & _); [simpl; auto | lia |].
  destruct (cart_caps_at_updated_stock 2003 2 None 1001 2 100 demo_cart_db)
    as (_ & _ & Hset & _); [simpl; auto | lia |].
  split; [rewrite Hadd by lia; reflexivity | rewrite Hset; reflexivity].
Defined.

(* ================================================================== *)
(** ** Orders: listing, detail and pages *)

Lemma insert_by_odate_perm (o : Order) (l : list Order) :
  Permutation (insert_by_odate o l) (o :: l).
Proof.
  induction l as [|o' l IH]; simpl; [reflexivity|].
  destruct (odate o' <=? odate o); [reflexivity|].
  rewrite IH. apply perm_swap.
Qed.

Lemma order_by_odate_perm (l : list Order) : Permutation (order_by_odate_desc l) l.
Proof.
  induction l as [|o l IH]; simpl; [reflexivity|].
  rewrite insert_by_odate_perm. now constructor.
Qed.

Lemma insert_by_odate_sorted (o : Order) (l : list Order) :
  newest_first l -> newest_first (insert_by_odate o l).
Proof.
  unfold newest_first. induction 1 as [|o' l Hs IH Hhd]; simpl.
  - repeat constructor.
  - destruct (Z.leb_spec (odate o') (odate o)) as [Hle|Hgt].
    + constructor; [now constructor | now constructor].
    + constructor; [assumption|].
      destruct l as [|o'' l]; simpl.
      * constructor. lia.
      * destruct (odate o'' <=? odate o); constructor; [lia|].
        now inversion Hhd.
Qed.

Lemma order_by_odate_sorted (l : list Order) : newest_first (order_by_odate_desc l).
Proof.
  induction l as [|o l IH]; simpl; [constructor|].
  now apply insert_by_odate_sorted.
Qed.

Lemma insert_by_lineNo_perm (a : OrderLine) (l : list OrderLine) :
  Permutation (insert_by_lineNo a l) (a :: l).
Proof.
  induction l as [|b l IH]; simpl; [reflexivity|].
  destruct (lineNo a <=? lineNo b); [reflexivity|].
  rewrite IH. apply perm_swap.
Qed.

Lemma order_by_lineNo_perm (l : list OrderLine) : Permutation (order_by_lineNo l) l.
Proof.
  induction l as [|a l IH]; simpl; [reflexivity|].
  rewrite insert_by_lineNo_perm. now constructor.
Qed.

Lemma insert_by_lineNo_sorted (a : OrderLine) (l : list OrderLine) :
  ascending_lineNo l -> ascending_lineNo (insert_by_lineNo a l).
Proof.
  unfold ascending_lineNo. induction 1 as [|b l Hs IH Hhd]; simpl.
  - repeat constructor.
  - destruct (Z.leb_spec (lineNo a) (lineNo b)) as [Hle|Hgt].
    + constructor; [now constructor | now constructor].
    + constructor; [assumption|].
      destruct l as [|c l]; simpl.
      * constructor. lia.
      * destruct (lineNo a <=? lineNo c); constructor; [lia|].
        now inversion Hhd.
Qed.

Lemma order_by_lineNo_sorted (l : list OrderLine) :
  ascending_lineNo (order_by_lineNo l).
Proof.
  induction l as [|a l IH]; simpl; [constructor|].
  now apply insert_by_lineNo_sorted.
Qed.

(** Sorting lines that are in order already changes nothing. *)
Lemma order_by_lineNo_fixed (l : list OrderLine) :
  ascending_lineNo l -> order_by_lineNo l = l.
Proof.
  unfold ascending_lineNo. induction 1 as [|a l Hs IH Hhd]; simpl; [reflexivity|].
  rewrite IH. destruct Hhd as [|b l Hab]; simpl; [reflexivity|].
  now destruct (Z.leb_spec (lineNo a) (lineNo b)); [|lia].
Qed.

Lemma number_lines_ascending (n line_no : Z) (lines : list Commit) :
  ascending_lineNo (number_lines n line_no lines).
Proof.
  unfold ascending_lineNo. revert line_no.
  induction lines as [|l lines IH]; intros line_no; simpl; [constructor|].
  constructor; [apply IH|].
  destruct lines as [|l' lines]; simpl; constructor. simpl. lia.
Qed.

Lemma number_lines_ono (n line_no : Z) (lines : list Commit) :
  filter (fun ol => line_ono ol =? n) (number_lines n line_no lines)
  = number_lines n line_no lines.
Proof.
  apply filter_all. revert line_no.
  induction lines as [|l lines IH]; intros line_no ol; simpl; [tauto|].
  intros [<-|H]; [simpl; apply Z.eqb_refl | now apply (IH (line_no + 1))].
Qed.

Lemma number_lines_other (n m line_no : Z) (lines : list Commit) :
  m <> n ->
  filter (fun ol => line_ono ol =? m) (number_lines n line_no lines) = [].
Proof.
  intros Hne. revert line_no.
  induction lines as [|l lines IH]; intros line_no; simpl; [reflexivity|].
  destruct (Z.eqb_spec n m); [congruence | apply IH].
Qed.

(** *** Pages *)

Lemma firstn_plus {A} (a b : nat) (l : list A) :
  firstn (a + b) l = firstn a l ++ firstn b (skipn a l).
Proof.
  revert l. induction a as [|a IH]; intros l; simpl; [reflexivity|].
  destruct l as [|x l]; simpl.
  - now rewrite firstn_nil.
  - now rewrite IH.
Qed.

(** The pages [a + 1] to [a + n] of size [k], one after the other, are the
    [n * k] rows after the first [a * k]. *)
Lemma pages_from {A} (l : list A) (k a n : nat) :
  List.concat (map (fun i => firstn k (skipn ((i - 1) * k) l)) (seq (Datatypes.S a) n))
  = firstn (n * k) (skipn (a * k) l).
Proof.
  revert a. induction n as [|n IH]; intros a; simpl; [reflexivity|].
  rewrite IH, firstn_plus, skipn_skipn, Nat.sub_0_r. reflexivity.
Qed.

Lemma page_of {A} (page_size : Z) (i : nat) (l : list A) :
  0 < page_size ->
  limit_offset page_size (Z.max (Z.of_nat i - 1) 0 * page_size) l
  = firstn (Z.to_nat page_size) (skipn ((i - 1) * Z.to_nat page_size) l).
Proof.
  intros Hps. unfold limit_offset.
  destruct (Z.ltb_spec page_size 0); [lia|]. do 2 f_equal.
  destruct i as [|i].
  - simpl. reflexivity.
  - rewrite Z.max_l by lia. rewrite Z2Nat.inj_mul by lia.
    f_equal. lia.
Qed.

(** Pages 1 to [n] of size [page_size > 0], enough of them, are the whole
    result in its order, each row once. *)
Lemma pages_cover {A} (page_size : Z) (n : nat) (l : list A) :
  0 < page_size -> (List.length l <= n * Z.to_nat page_size)%nat ->
  List.concat (map (fun i =>
                 limit_offset page_size (Z.max (Z.of_nat i - 1) 0 * page_size) l)
              (seq 1 n))
  = l.
Proof.
  intros Hps Hlen.
  rewrite (map_ext _ (fun i => firstn (Z.to_nat page_size)
                                 (skipn ((i - 1) * Z.to_nat page_size) l)))
    by (intros i; now apply page_of).
  rewrite pages_from. simpl. now apply firstn_all2.
Qed.

Lemma limit_offset_length {A} (limit offset : Z) (l : list A) :
  0 <= limit -> Z.of_nat (List.length (limit_offset limit offset l)) <= limit.
Proof.
  intros H. unfold limit_offset. destruct (Z.ltb_spec limit 0); [lia|].
  pose proof (firstn_le_length (Z.to_nat limit) (skipn (Z.to_nat offset) l)). lia.
Qed.

Lemma limit_offset_In {A} (limit offset : Z) (l : list A) (x : A) :
  In x (limit_offset limit offset l) -> In x l.
Proof.
  unfold limit_offset. intros H.
  assert (Hs : In x (skipn (Z.to_nat offset) l)).
  { destruct (limit <? 0); [assumption|].
    rewrite <- (firstn_skipn (Z.to_nat limit) (skipn (Z.to_nat offset) l)).
    apply in_or_app. now left. }
  rewrite <- (firstn_skipn (Z.to_nat offset) l). apply in_or_app. now right.
Qed.

Lemma list_orders_eq (cid page page_size : Z) (db : DB) :
  list_orders cid page page_size db
  = (Return (limit_offset page_size (Z.max (page - 1) 0 * page_size)
               (select_orders_of cid db),
             Z.of_nat (List.length
                         (filter (fun o => order_cid o =? cid) (orders db)))),
     db).
Proof. reflexivity. Qed.

(** X9.  [list_orders] reads without writing.  Every call returns the number of
    the customer's orders as total and at most [page_size] of them, all of
    the customer.  For a page size above 0, pages 1 to [n] that are enough
    for the total are, one after the other, all orders of the customer, the
    newest first, each once. *)
Theorem list_orders_pages (cid page_size : Z) (n : nat) (db : DB) :
  0 < page_size ->
  (List.length (orders_of cid db) <= n * Z.to_nat page_size)%nat ->
  List.concat (order_pages cid page_size n db) = select_orders_of cid db
  /\ Permutation (select_orders_of cid db) (orders_of cid db)
  /\ newest_first (select_orders_of cid db)
  /\ forall page,
       exists rows,
         list_orders cid page page_size db
         = (Return (rows, Z.of_nat (List.length (orders_of cid db))), db)
         /\ Z.of_nat (List.length rows) <= page_size
         /\ forall o, In o rows -> In o (orders db) /\ order_cid o = cid.
Proof.
  intros Hps Hlen. split; [|split; [|split]].
  - unfold order_pages. apply pages_cover; [assumption|].
    unfold select_orders_of.
    now rewrite (Permutation_length (order_by_odate_perm _)).
  - apply order_by_odate_perm.
  - apply order_by_odate_sorted.
  - intros page. eexists. split; [apply list_orders_eq|]. split.
    + apply limit_offset_length. lia.
    + intros o Ho. apply limit_offset_In in Ho.
      apply (Permutation_in _ (order_by_odate_perm _)) in Ho.
      apply filter_In in Ho. destruct Ho as [Hin He].
      split; [assumption | now apply Z.eqb_eq].
Qed.

Lemma list_orders_pages_witness :
  map (map ono) (order_pages 1001 1 2 demo_cart_db) = [[100001]; []]
  /\ List.concat (order_pages 1001 1 2 demo_cart_db) = select_orders_of 1001 demo_cart_db.
Proof.
  split; [reflexivity|].
  refine (proj1 (list_orders_pages 1001 1 2 demo_cart_db _ _)); [lia|].
  simpl. lia.
Defined.




(* ================================================================== *)
(** ** Orders after checkout *)

Lemma find_app_none {A} (f : A -> bool) (l l' : list A) :
  find f l = None -> find f (l ++ l') = find f l'.
Proof.
  induction l as [|x l IH]; simpl; [reflexivity|].
  destruct (f x); [discriminate | exact IH].
Qed.

Lemma find_app_some {A} (f : A -> bool) (l l' : list A) (x : A) :
  find f l = Some x -> find f (l ++ l') = Some x.
Proof.
  induction l as [|y l IH]; simpl; [discriminate|].
  destruct (f y); [trivial | exact IH].
Qed.

Lemma order_exists_find (n : Z) (db : DB) :
  order_exists n db = false <-> find (fun o => ono o =? n) (orders db) = None.
Proof.
  unfold order_exists. induction (orders db) as [|o l IH]; simpl; [tauto|].
  destruct (ono o =? n); simpl; [split; discriminate | exact IH].
Qed.

Lemma no_line_of_free_order (n : Z) (db : DB) :
  lines_have_orders db -> order_exists n db = false ->
  filter (fun ol => line_ono ol =? n) (orderlines db) = [].
Proof.
  intros Hfk Hfree.
  destruct (filter _ (orderlines db)) as [|ol l] eqn:E; [reflexivity|].
  assert (Hin : In ol (filter (fun ol => line_ono ol =? n) (orderlines db)))
    by (rewrite E; now left).
  apply filter_In in Hin. destruct Hin as [Hin He]. apply Z.eqb_eq in He.
  specialize (Hfk ol Hin). congruence.
Qed.

Lemma get_order_detail_eq (n : Z) (db : DB) :
  get_order_detail n db
  = (Return match find (fun o => ono o =? n) (orders db) with
            | None => (None, [])
            | Some o => (Some o, select_lines_of n db)
            end,
     db).
Proof.
  unfold get_order_detail, connect, bind, fetch, ret. simpl.
  now destruct (find _ (orders db)).
Qed.

(** X11.  [get_order_detail] reads without writing.  It returns no order and no
    line exactly when no order has the number, orphan lines or not;
    otherwise an order with that number and the order lines carrying it, in
    ascending [lineNo] order. *)
Theorem get_order_detail_result (n : Z) (db : DB) :
  exists o lines,
    get_order_detail n db = (Return (o, lines), db)
    /\ (o = None <-> order_exists n db = false)
    /\ (o = None -> lines = [])
    /\ (forall x, o = Some x ->
          In x (orders db) /\ ono x = n
          /\ Permutation lines
               (filter (fun ol => line_ono ol =? n) (orderlines db))
          /\ ascending_lineNo lines).
Proof.
  rewrite get_order_detail_eq.
  destruct (find (fun o => ono o =? n) (orders db)) as [x|] eqn:E.
  - exists (Some x), (select_lines_of n db). split; [reflexivity|].
    split; [split; [discriminate|]|].
    + intros H. apply order_exists_find in H. congruence.
    + split; [discriminate|]. intros y Hy. inversion Hy; subst y.
      apply find_some in E. destruct E as [Hin He].
      split; [assumption|]. split; [now apply Z.eqb_eq|].
      split; [apply order_by_lineNo_perm | apply order_by_lineNo_sorted].
  - exists None, []. split; [reflexivity|].
    split; [split; [intros _; now apply order_exists_find | reflexivity]|].
    split; [reflexivity | discriminate].
Qed.

(** X12.  Round trip.  When every order line belongs to an order, [checkout]
    followed by [get_order_detail] on the number it returned gives back the
    header just written and exactly the committed lines, numbered from 1 in
    the order they were committed; the lines still all belong to orders, and
    the detail of every other order number is what it was. *)
Theorem checkout_then_order_detail (draws : list Z) (cid sessionNo : Z)
    (shipping_address : text) (odate : Z) (db : DB) :
  (exists n, In n draws /\ order_exists n db = false) ->
  lines_have_orders db ->
  exists n db',
    checkout draws cid sessionNo shipping_address odate db = Some (n, db')
    /\ get_order_detail n db'
       = (Return (Some (mkOrder n cid sessionNo odate shipping_address),
                  number_lines n 1
                    (committed_lines db (select_cart_grouped cid db))),
          db')
    /\ lines_have_orders db'
    /\ forall m, m <> n ->
         fst (get_order_detail m db') = fst (get_order_detail m db).
Proof.
  intros Hfree Hfk.
  destruct (checkout_eq draws cid sessionNo shipping_address odate db Hfree)
    as (n & Hin & Hn & Hrun).
  set (lines := committed_lines db (select_cart_grouped cid db)) in *.
  set (o := mkOrder n cid sessionNo odate shipping_address) in *.
  exists n. eexists. split; [exact Hrun|].
  assert (Hnone : find (fun x => ono x =? n) (orders db) = None)
    by now apply order_exists_find.
  split; [|split].
  - rewrite get_order_detail_eq. simpl.
    rewrite (find_app_none _ _ _ Hnone). simpl. rewrite Z.eqb_refl.
    unfold select_lines_of. simpl.
    rewrite filter_app, (no_line_of_free_order n db Hfk Hn), number_lines_ono.
    simpl. now rewrite (order_by_lineNo_fixed _ (number_lines_ascending n 1 lines)).
  - intros ol Hol. simpl in Hol. unfold order_exists. simpl.
    rewrite existsb_app. apply in_app_or in Hol. destruct Hol as [Hol|Hol].
    + apply Hfk in Hol. unfold order_exists in Hol. now rewrite Hol.
    + assert (Hf : In ol (filter (fun ol => line_ono ol =? n)
                            (number_lines n 1 lines)))
        by (rewrite number_lines_ono; assumption).
      apply filter_In in Hf. destruct Hf as [_ He]. apply Z.eqb_eq in He.
      simpl. rewrite He, Z.eqb_refl. simpl. apply orb_true_r.
  - intros m Hm. rewrite !get_order_detail_eq. simpl.
    unfold select_lines_of. simpl.
    rewrite filter_app, (number_lines_other n m 1 lines Hm), app_nil_r.
    destruct (find (fun x => ono x =? m) (orders db)) as [x|] eqn:E.
    + now rewrite (find_app_some _ _ _ _ E).
    + rewrite (find_app_none _ _ _ E). simpl.
      now destruct (Z.eqb_spec n m); [congruence|].
Qed.

Lemma demo_cart_db_lines : lines_have_orders demo_cart_db.
Proof. intros ol [<-|[]]. reflexivity. Qed.

Lemma checkout_then_order_detail_witness :
  exists db',
    checkout [100001; 555555] 1002 3 (str "Somewhere") 20251102 demo_cart_db
    = Some (555555, db')
    /\ get_order_detail 555555 db'
       = (Return (Some (mkOrder 555555 1002 3 20251102 (str "Somewhere")),
                  [mkOrderLine 555555 1 2001 4 (25 # 1);
                   mkOrderLine 555555 2 2003 2 (10 # 1)]),
          db').
Proof.
  destruct (checkout_then_order_detail [100001; 555555] 1002 3 (str "Somewhere")
              20251102 demo_cart_db)
    as (n & db' & Hrun & Hdetail & _).
  - exists 555555. split; [simpl; auto | reflexivity].
  - exact demo_cart_db_lines.
  - assert (Hn : n = 555555).
    { assert (E : option_map fst
                    (checkout [100001; 555555] 1002 3 (str "Somewhere") 20251102
                       demo_cart_db) = Some 555555) by reflexivity.
      rewrite Hrun in E. simpl in E. now inversion E. }
    subst n. exists db'. split; [exact Hrun | exact Hdetail].
Defined.

(** X13.  After [checkout] the customer has one order more: [list_orders] counts
    one more for the customer and lists the new order among the customer's,
    and answers for every other customer what it answered before. *)
Theorem checkout_then_list_orders (draws : list Z) (cid sessionNo : Z)
    (shipping_address : text) (odate : Z) (db : DB) :
  (exists n, In n draws /\ order_exists n db = false) ->
  exists n db',
    checkout draws cid sessionNo shipping_address odate db = Some (n, db')
    /\ orders_of cid db'
       = orders_of cid db ++ [mkOrder n cid sessionNo odate shipping_address]
    /\ In (mkOrder n cid sessionNo odate shipping_address)
          (select_orders_of cid db')
    /\ (forall page page_size,
          exists rows,
            list_orders cid page page_size db'
            = (Return (rows, Z.of_nat (List.length (orders_of cid db)) + 1), db'))
    /\ (forall cid' page page_size, cid' <> cid ->
          fst (list_orders cid' page page_size db')
          = fst (list_orders cid' page page_size db)).
Proof.
  intros Hfree.
  destruct (checkout_eq draws cid sessionNo shipping_address odate db Hfree)
    as (n & Hin & Hn & Hrun).
  set (o := mkOrder n cid sessionNo odate shipping_address) in *.
  exists n. eexists. split; [exact Hrun|].
  assert (Hof : forall c,
    orders_of c (delete_cart_customer cid
                   (after_lines n 1
                      (committed_lines db (select_cart_grouped cid db))
                      (insert_order o db)))
    = orders_of c db ++ (if c =? cid then [o] else [])).
  { intros c. unfold orders_of. simpl. rewrite filter_app. simpl.
    rewrite (Z.eqb_sym cid c). now destruct (c =? cid). }
  split; [|split; [|split]].
  - now rewrite Hof, Z.eqb_refl.
  - unfold select_orders_of. fold (orders_of cid). 
    apply (Permutation_in _ (Permutation_sym (order_by_odate_perm _))).
    change (filter (fun o0 => order_cid o0 =? cid) (orders ?d)) with (orders_of cid d).
    unfold orders_of in Hof |- *. rewrite (Hof cid), Z.eqb_refl.
    apply in_or_app. right. now left.
  - intros page page_size. eexists. rewrite list_orders_eq. do 3 f_equal.
    fold (orders_of cid). unfold orders_of in Hof |- *.
    rewrite (Hof cid), Z.eqb_refl, length_app. simpl. lia.
  - intros cid' page page_size Hne. rewrite !list_orders_eq. cbn [fst].
    unfold select_orders_of. unfold orders_of in Hof.
    rewrite !(Hof cid').
    destruct (Z.eqb_spec cid' cid); [contradiction|]. now rewrite !app_nil_r.
Qed.

Lemma checkout_then_list_orders_witness :
  exists db',
    checkout [555555] 1001 3 (str "Here") 20251105 demo_cart_db
    = Some (555555, db')
    /\ fst (list_orders 1001 1 5 db')
       = Return ([mkOrder 555555 1001 3 20251105 (str "Here");
                  mkOrder 100001 1001 1 20251101 (str "Here")], 2).
Proof.
  destruct (checkout_then_list_orders [555555] 1001 3 (str "Here") 20251105
              demo_cart_db) as (n & db' & Hrun & Hof & _).
  - exists 555555. split; [simpl; auto | reflexivity].
  - assert (Hn : n = 555555).
    { assert (E : option_map fst
                    (checkout [555555] 1001 3 (str "Here") 20251105
                       demo_cart_db) = Some 555555) by reflexivity.
      rewrite Hrun in E. simpl in E. now inversion E. }
    subst n. exists db'. split; [exact Hrun|].
    rewrite list_orders_eq. unfold select_orders_of.
    fold (orders_of 1001 db'). rewrite Hof. reflexivity.
Defined.

Lemma delete_cart_customer_idem (cid : Z) (db : DB) :
  delete_cart_customer cid (delete_cart_customer cid db)
  = delete_cart_customer cid db.
Proof.
  unfold delete_cart_customer, set_cart. simpl.
  now rewrite (filter_neg_idem (fun r => cart_cid r =? cid)).
Qed.

(** X14.  What the checkout dialog does next.  The [clear_cart] that follows
    [checkout] finds nothing to delete and leaves the state as it is.  A
    second [checkout] of the same customer, given a free draw, still creates
    an order: one with another number and no line, without touching stocks,
    order lines or cart. *)
Theorem checkout_then_again (draws draws2 : list Z) (cid sessionNo : Z)
    (shipping_address : text) (odate sessionNo2 : Z) (address2 : text)
    (odate2 : Z) (db : DB) :
  (exists n, In n draws /\ order_exists n db = false) ->
  exists n db',
    checkout draws cid sessionNo shipping_address odate db = Some (n, db')
    /\ clear_cart cid sessionNo db' = (Return tt, db')
    /\ ((exists m, In m draws2 /\ order_exists m db' = false) ->
        exists n2 db2,
          checkout draws2 cid sessionNo2 address2 odate2 db' = Some (n2, db2)
          /\ n2 <> n
          /\ orders db2 = orders db' ++ [mkOrder n2 cid sessionNo2 odate2 address2]
          /\ orderlines db2 = orderlines db'
          /\ products db2 = products db'
          /\ cart db2 = cart db').
Proof.
  intros Hfree.
  destruct (checkout_eq draws cid sessionNo shipping_address odate db Hfree)
    as (n & Hin & Hn & Hrun).
  set (db1 := after_lines n 1 (committed_lines db (select_cart_grouped cid db))
                (insert_order (mkOrder n cid sessionNo odate shipping_address) db))
    in *.
  exists n, (delete_cart_customer cid db1). split; [exact Hrun|]. split.
  - unfold clear_cart, connect, bind, execute, commit. simpl.
    f_equal. apply delete_cart_customer_idem.
  - intros Hfree2.
    destruct (checkout_eq draws2 cid sessionNo2 address2 odate2
                (delete_cart_customer cid db1) Hfree2) as (n2 & Hin2 & Hn2 & Hrun2).
    rewrite grouped_after_delete in Hrun2. simpl committed_lines in Hrun2.
    rewrite after_lines_none in Hrun2.
    exists n2. eexists. split; [exact Hrun2|]. split.
    + intros ->. unfold order_exists in Hn2. simpl in Hn2.
      rewrite existsb_app in Hn2. simpl in Hn2.
      rewrite Z.eqb_refl, orb_true_r in Hn2. discriminate.
    + split; [reflexivity|]. split; [reflexivity|]. split; [reflexivity|].
      simpl. apply (filter_neg_idem (fun r => cart_cid r =? cid)).
Qed.

Lemma checkout_then_again_witness :
  exists db',
    checkout [555555] 1002 3 (str "Somewhere") 20251102 demo_cart_db
    = Some (555555, db')
    /\ clear_cart 1002 3 db' = (Return tt, db')
    /\ exists db2,
         checkout [555555; 555556] 1002 3 (str "Somewhere") 20251102 db'
         = Some (555556, db2)
         /\ orderlines db2 = orderlines db'.
Proof.
  destruct (checkout_then_again [555555] [555555; 555556] 1002 3
              (str "Somewhere") 20251102 3 (str "Somewhere") 20251102
              demo_cart_db) as (n & db' & Hrun & Hclear & Hagain).
  - exists 555555. split; [simpl; auto | reflexivity].
  - assert (Hn : n = 555555).
    { assert (E : option_map fst
                    (checkout [555555] 1002 3 (str "Somewhere") 20251102
                       demo_cart_db) = Some 555555) by reflexivity.
      rewrite Hrun in E. simpl in E. now inversion E. }
    subst n. exists db'. split; [exact Hrun|]. split; [exact Hclear|].
    assert (Hdb' : Some (555555, db')
                   = checkout [555555] 1002 3 (str "Somewhere") 20251102
                       demo_cart_db) by (symmetry; exact Hrun).
    destruct Hagain as (n2 & db2 & Hrun2 & _ & _ & Hlines & _).
    + exists 555556. split; [simpl; auto|].
      vm_compute in Hdb'. inversion Hdb'. reflexivity.
    + assert (Hn2 : n2 = 555556).
      { assert (E : option_map fst
                      (checkout [555555; 555556] 1002 3 (str "Somewhere")
                         20251102 db') = Some 555556).
        { vm_compute in Hdb'. inversion Hdb'. reflexivity. }
        rewrite Hrun2 in E. simpl in E. now inversion E. }
      subst n2. exists db2. split; [exact Hrun2 | exact Hlines].
Defined.

Lemma compute_order_total_eq (float_sum : list (Z * Q) -> Q) (n : Z) (db : DB) :
  compute_order_total float_sum n db
  = (Return match filter (fun ol => line_ono ol =? n) (orderlines db) with
            | [] => 0%Q
            | ls => float_sum (map (fun ol => (qty ol, uprice ol)) ls)
            end,
     db).
Proof. reflexivity. Qed.

(** X15.  Whatever the floating-point sum, [compute_order_total] is 0 for an
    order number that no order line carries, and so, when every order line
    belongs to an order, for an unknown order number and for the order that
    [checkout] creates when nothing of the cart can be committed. *)
Theorem compute_order_total_without_lines (float_sum : list (Z * Q) -> Q) :
  (forall n db,
     lines_have_orders db -> order_exists n db = false ->
     compute_order_total float_sum n db = (Return 0%Q, db))
  /\ (forall draws cid sessionNo shipping_address odate db,
        lines_have_orders db ->
        committed_lines db (select_cart_grouped cid db) = [] ->
        (exists n, In n draws /\ order_exists n db = false) ->
        exists n db',
          checkout draws cid sessionNo shipping_address odate db = Some (n, db')
          /\ order_exists n db' = true
          /\ compute_order_total float_sum n db' = (Return 0%Q, db')).
Proof.
  split.
  - intros n db Hfk Hn. rewrite compute_order_total_eq.
    now rewrite (no_line_of_free_order n db Hfk Hn).
  - intros draws cid sessionNo shipping_address odate db Hfk Hnone Hfree.
    destruct (checkout_eq draws cid sessionNo shipping_address odate db Hfree)
      as (n & Hin & Hn & Hrun).
    rewrite Hnone, after_lines_none in Hrun.
    exists n. eexists. split; [exact Hrun|]. split.
    + unfold order_exists. simpl. rewrite existsb_app. simpl.
      now rewrite Z.eqb_refl, orb_true_r.
    + rewrite compute_order_total_eq. simpl.
      now rewrite (no_line_of_free_order n db Hfk Hn).
Qed.

Lemma compute_order_total_without_lines_witness :
  compute_order_total (fun _ => 1%Q) 424242 demo_cart_db
  = (Return 0%Q, demo_cart_db).
Proof.
  apply (proj1 (compute_order_total_without_lines (fun _ => 1%Q))).
  - exact demo_cart_db_lines.
  - reflexivity.
Defined.

(* ================================================================== *)
(** ** Top products *)

Lemma Sorted_weaken {A} (R R' : A -> A -> Prop) (l : list A) :
  (forall a b, R a b -> R' a b) -> Sorted R l -> Sorted R' l.
Proof.
  intros H. induction 1 as [|a l Hs IH Hhd]; constructor; [assumption|].
  destruct Hhd; constructor. auto.
Qed.

Lemma rank_before_total (a b : Z * Z) :
  rank_before a b = false -> rank_before b a = true.
Proof.
  unfold rank_before. intros H.
  apply orb_false_iff in H. destruct H as [H1 H2].
  apply Z.ltb_ge in H1.
  destruct (Z.ltb_spec (snd a) (snd b)); [reflexivity|]. simpl.
  assert (E : snd a = snd b) by lia.
  rewrite E, Z.eqb_refl in H2. simpl in H2. apply Z.leb_gt in H2.
  rewrite E, Z.eqb_refl. simpl. apply Z.leb_le. lia.
Qed.

Lemma rank_before_counts (a b : Z * Z) :
  rank_before a b = true -> snd b <= snd a.
Proof.
  unfold rank_before. intros H. apply orb_true_iff in H.
  destruct H as [H|H]; [apply Z.ltb_lt in H; lia|].
  apply andb_true_iff in H. destruct H as [H _]. apply Z.eqb_eq in H. lia.
Qed.

Lemma insert_ranked_perm (a : Z * Z) (l : list (Z * Z)) :
  Permutation (insert_ranked a l) (a :: l).
Proof.
  induction l as [|b l IH]; simpl; [reflexivity|].
  destruct (rank_before a b); [reflexivity|].
  rewrite IH. apply perm_swap.
Qed.

Lemma order_by_count_desc_perm (l : list (Z * Z)) :
  Permutation (order_by_count_desc l) l.
Proof.
  induction l as [|a l IH]; simpl; [reflexivity|].
  rewrite insert_ranked_perm. now constructor.
Qed.

Lemma insert_ranked_sorted (a : Z * Z) (l : list (Z * Z)) :
  Sorted (fun x y => rank_before x y = true) l ->
  Sorted (fun x y => rank_before x y = true) (insert_ranked a l).
Proof.
  induction 1 as [|b l Hs IH Hhd]; simpl.
  - repeat constructor.
  - destruct (rank_before a b) eqn:E.
    + constructor; [now constructor | now constructor].
    + constructor; [assumption|].
      destruct l as [|c l]; simpl.
      * constructor. now apply rank_before_total.
      * destruct (rank_before a c); constructor;
          [now apply rank_before_total | now inversion Hhd].
Qed.

Lemma order_by_count_desc_sorted (l : list (Z * Z)) :
  Sorted (fun x y => rank_before x y = true) (order_by_count_desc l).
Proof.
  induction l as [|a l IH]; simpl; [constructor|].
  now apply insert_ranked_sorted.
Qed.

Lemma order_by_count_desc_descends (l : list (Z * Z)) :
  counts_descend (order_by_count_desc l).
Proof.
  unfold counts_descend. apply Sorted_StronglySorted.
  - intros a b c Hab Hbc. lia.
  - apply (Sorted_weaken (fun x y => rank_before x y = true)).
    + apply rank_before_counts.
    + apply order_by_count_desc_sorted.
Qed.

Lemma counts_descend_nth (rows : list (Z * Z)) (i j : nat) :
  counts_descend rows -> (i <= j < List.length rows)%nat ->
  snd (nth j rows (0, 0)) <= snd (nth i rows (0, 0)).
Proof.
  intros H. revert i j. induction H as [|a l Hs IH Hall]; intros i j Hij.
  - simpl in Hij. lia.
  - destruct j as [|j]; [replace i with 0%nat by lia; simpl; lia|].
    destruct i as [|i].
    + simpl. rewrite Forall_forall in Hall. apply Hall.
      apply nth_In. simpl in Hij. lia.
    + simpl. apply IH. simpl in Hij. lia.
Qed.

(** In a ranking, the rows at or above a threshold are a prefix, and every
    later row is below the threshold. *)
Lemma threshold_prefix (rows : list (Z * Z)) (t : Z) :
  counts_descend rows ->
  let kept := filter (fun r => t <=? snd r) rows in
  kept = firstn (List.length kept) rows
  /\ forall r, In r (skipn (List.length kept) rows) -> snd r < t.
Proof.
  induction 1 as [|a l Hs IH Hall]; simpl; [split; [reflexivity | intros r []]|].
  destruct (Z.leb_spec t (snd a)) as [Hle|Hgt]; simpl.
  - destruct IH as [IH1 IH2]. split; [now rewrite <- IH1 | exact IH2].
  - assert (Hnone : filter (fun r => t <=? snd r) l = []).
    { rewrite Forall_forall in Hall.
      destruct (filter _ l) as [|b r] eqn:E; [reflexivity|].
      assert (Hb : In b (filter (fun r => t <=? snd r) l)) by (rewrite E; now left).
      apply filter_In in Hb. destruct Hb as [Hb Hle]. apply Z.leb_le in Hle.
      specialize (Hall b Hb). simpl in Hall. lia. }
    rewrite Hnone. simpl. split; [reflexivity|].
    intros r [<-|Hr]; [assumption|].
    rewrite Forall_forall in Hall. specialize (Hall r Hr). simpl in Hall. lia.
Qed.

Lemma skipn_nth_In {A} (l : list A) (m j : nat) (d : A) :
  (m <= j < List.length l)%nat -> In (nth j l d) (skipn m l).
Proof.
  revert m j. induction l as [|x l IH]; intros m j H; simpl in H; [lia|].
  destruct m as [|m]; [apply nth_In; simpl; lia|].
  destruct j as [|j]; [lia|]. simpl. apply IH. lia.
Qed.

Lemma firstn_nth_In {A} (l : list A) (m i : nat) (d : A) :
  (i < m)%nat -> (i < List.length l)%nat -> In (nth i l d) (firstn m l).
Proof.
  revert m i. induction l as [|x l IH]; intros m i Hm Hl; simpl in Hl; [lia|].
  destruct m as [|m]; [lia|]. destruct i as [|i]; simpl; [now left|].
  right. apply IH; lia.
Qed.

(** The rows [top_rows] keeps with ties, for a ranking and [k >= 1]. *)
Lemma top_rows_with_ties (rows : list (Z * Z)) (k : Z) :
  counts_descend rows -> 1 <= k -> rows <> [] ->
  top_with_ties rows (Z.to_nat k) (top_rows rows k true).
Proof.
  intros Hd Hk Hne. unfold top_with_ties, top_rows.
  destruct rows as [|r0 rows0] eqn:Er; [contradiction|]. rewrite <- Er in *.
  simpl negb. cbv iota. destruct (Z.ltb_spec k 1); [lia|].
  set (kk := Nat.min (Z.to_nat k) (List.length rows)).
  set (t := snd (nth (kk - 1) rows (0, 0))).
  assert (Hlen : (0 < List.length rows)%nat) by (rewrite Er; simpl; lia).
  assert (Hkk : (1 <= kk <= List.length rows)%nat) by (unfold kk; lia).
  destruct (threshold_prefix rows t Hd) as [Hpre Hrest].
  set (kept := filter (fun r => t <=? snd r) rows) in *.
  exists (List.length kept). split; [exact Hpre|].
  assert (Hm : (kk <= List.length kept)%nat).
  { destruct (Nat.le_gt_cases kk (List.length kept)) as [|Hlt]; [assumption|].
    exfalso.
    assert (Hin : In (nth (kk - 1) rows (0, 0)) (skipn (List.length kept) rows))
      by (apply skipn_nth_In; lia).
    apply Hrest in Hin. unfold t in Hin. lia. }
  split; [exact Hm|]. split; [|exact Hrest].
  intros i Hi.
  assert (Hil : (i < List.length rows)%nat).
  { assert (List.length kept <= List.length rows)%nat
      by (rewrite Hpre at 1; rewrite length_firstn; lia). lia. }
  assert (Hge : t <= snd (nth i rows (0, 0))).
  { assert (Hin : In (nth i rows (0, 0)) kept).
    { rewrite Hpre. apply firstn_nth_In; lia. }
    unfold kept in Hin. apply filter_In in Hin. destruct Hin as [_ H'].
    now apply Z.leb_le. }
  assert (Hle : snd (nth i rows (0, 0)) <= t)
    by (unfold t; apply counts_descend_nth; [assumption | lia]).
  lia.
Qed.

Lemma nodup_distinct_pairs {A} (f : Z -> A) (l : list Z) :
  NoDup (map fst (map (fun p => (p, f p)) (distinct l))).
Proof.
  rewrite map_map. simpl. rewrite map_id. apply NoDup_nodup.
Qed.

(** The ranking by orders: every product of some order line, once, with the
    number of distinct orders it occurs in, the counts never increasing. *)
Lemma select_order_counts_spec (db : DB) :
  counts_descend (select_order_counts db)
  /\ NoDup (map fst (select_order_counts db))
  /\ forall p c, In (p, c) (select_order_counts db) <->
                 In p (map line_pid (orderlines db)) /\ c = orders_with p db.
Proof.
  split; [apply order_by_count_desc_descends|]. split.
  - apply (Permutation_NoDup
             (Permutation_map fst (Permutation_sym (order_by_count_desc_perm _)))).
    apply nodup_distinct_pairs.
  - intros p c. unfold select_order_counts. split.
    + intros H. apply (Permutation_in _ (order_by_count_desc_perm _)) in H.
      apply in_map_iff in H. destruct H as (p' & E & Hp').
      inversion E; subst. split; [|reflexivity].
      exact (proj1 (nodup_In Z.eq_dec _ _) Hp').
    + intros [Hp ->].
      apply (Permutation_in _ (Permutation_sym (order_by_count_desc_perm _))).
      apply in_map_iff. exists p. split; [reflexivity|].
      exact (proj2 (nodup_In Z.eq_dec _ _) Hp).
Qed.

Lemma select_view_counts_spec (s : Site) :
  counts_descend (select_view_counts s)
  /\ NoDup (map fst (select_view_counts s))
  /\ forall p c, In (p, c) (select_view_counts s) <->
                 In p (map view_pid (viewedProduct s)) /\ c = views_of p s.
Proof.
  split; [apply order_by_count_desc_descends|]. split.
  - apply (Permutation_NoDup
             (Permutation_map fst (Permutation_sym (order_by_count_desc_perm _)))).
    apply nodup_distinct_pairs.
  - intros p c. unfold select_view_counts. split.
    + intros H. apply (Permutation_in _ (order_by_count_desc_perm _)) in H.
      apply in_map_iff in H. destruct H as (p' & E & Hp').
      inversion E; subst. split; [|reflexivity].
      exact (proj1 (nodup_In Z.eq_dec _ _) Hp').
    + intros [Hp ->].
      apply (Permutation_in _ (Permutation_sym (order_by_count_desc_perm _))).
      apply in_map_iff. exists p. split; [reflexivity|].
      exact (proj2 (nodup_In Z.eq_dec _ _) Hp).
Qed.

Lemma top_rows_cases (rows : list (Z * Z)) (k : Z) :
  counts_descend rows ->
  (1 <= k -> rows <> [] -> top_with_ties rows (Z.to_nat k) (top_rows rows k true))
  /\ (k < 1 -> top_rows rows k true = [])
  /\ (0 <= k -> top_rows rows k false = firstn (Z.to_nat k) rows)
  /\ (1 <= k -> exists extra,
        top_rows rows k true = top_rows rows k false ++ extra)
  /\ (k < 0 ->
      top_rows rows k false
      = firstn (List.length rows - Z.to_nat (- k)) rows).
Proof.
  intros Hd. split; [now apply top_rows_with_ties|]. split; [|split; [|split]].
  - intros Hk. unfold top_rows. destruct rows; [reflexivity|]. simpl.
    now destruct (Z.ltb_spec k 1); [|lia].
  - intros Hk. unfold top_rows, py_slice_to. destruct rows as [|r rows].
    + now rewrite firstn_nil.
    + simpl negb. cbv iota. now destruct (Z.leb_spec 0 k); [|lia].
  - intros Hk. destruct rows as [|r0 rows0] eqn:Er.
    + exists []. reflexivity.
    + rewrite <- Er in *.
      destruct (top_rows_with_ties rows k Hd Hk) as (m & Hres & Hm & _);
        [rewrite Er; discriminate|].
      assert (Hno : top_rows rows k false = firstn (Z.to_nat k) rows).
      { unfold top_rows, py_slice_to. rewrite Er. simpl negb. cbv iota.
        now destruct (Z.leb_spec 0 k); [|lia]. }
      rewrite Hres, Hno. exists (skipn (Z.to_nat k) (firstn m rows)).
      rewrite <- (firstn_skipn (Z.to_nat k) (firstn m rows)) at 1.
      f_equal. rewrite firstn_firstn.
      destruct (Nat.le_gt_cases (Z.to_nat k) (List.length rows)).
      * now rewrite Nat.min_l by lia.
      * rewrite !(firstn_all2 rows) by lia. reflexivity.
  - intros Hk. unfold top_rows, py_slice_to. destruct rows as [|r rows].
    + now rewrite firstn_nil.
    + simpl negb. cbv iota. now destruct (Z.leb_spec 0 k); [lia|].
Qed.

(** X16.  [top_products_by_orders] reads without writing and works on the ranking
    of the products by the number of distinct orders they occur in (each
    product once, counts never increasing).  With ties and [k >= 1] it
    returns the top [k] extended by the rows tied with rank [k], and no other
    row; with ties and [k < 1] nothing.  Without ties and [k >= 0] it returns
    the first [k] rows, a prefix of the answer with ties; without ties and
    [k < 0] it drops the last [-k] rows of the ranking. *)
Theorem top_products_by_orders_result (k : Z) (db : DB) :
  let rows := select_order_counts db in
  (forall ties, top_products_by_orders k ties db = (Return (top_rows rows k ties), db))
  /\ counts_descend rows /\ NoDup (map fst rows)
  /\ (forall p c, In (p, c) rows <->
                  In p (map line_pid (orderlines db)) /\ c = orders_with p db)
  /\ (1 <= k -> rows <> [] -> top_with_ties rows (Z.to_nat k) (top_rows rows k true))
  /\ (k < 1 -> top_rows rows k true = [])
  /\ (0 <= k -> top_rows rows k false = firstn (Z.to_nat k) rows)
  /\ (1 <= k -> exists extra, top_rows rows k true = top_rows rows k false ++ extra)
  /\ (k < 0 ->
      top_rows rows k false = firstn (List.length rows - Z.to_nat (- k)) rows).
Proof.
  intros rows. destruct (select_order_counts_spec db) as (Hd & Hnd & Hin).
  split; [reflexivity|]. split; [exact Hd|]. split; [exact Hnd|].
  split; [exact Hin|]. now apply top_rows_cases.
Qed.

Lemma top_products_by_orders_result_witness :
  top_with_ties (select_order_counts demo_cart_db) 1
                (top_rows (select_order_counts demo_cart_db) 1 true).
Proof.
  destruct (top_products_by_orders_result 1 demo_cart_db)
    as (_ & _ & _ & _ & H & _).
  apply H; [lia | vm_compute; discriminate].
Defined.

(** X17.  [top_products_by_views] does the same on the ranking of the products by
    their number of views. *)
Theorem top_products_by_views_result (k : Z) (s : Site) :
  let rows := select_view_counts s in
  (forall ties, top_products_by_views k ties s = (Return (top_rows rows k ties), s))
  /\ counts_descend rows /\ NoDup (map fst rows)
  /\ (forall p c, In (p, c) rows <->
                  In p (map view_pid (viewedProduct s)) /\ c = views_of p s)
  /\ (1 <= k -> rows <> [] -> top_with_ties rows (Z.to_nat k) (top_rows rows k true))
  /\ (k < 1 -> top_rows rows k true = [])
  /\ (0 <= k -> top_rows rows k false = firstn (Z.to_nat k) rows)
  /\ (1 <= k -> exists extra, top_rows rows k true = top_rows rows k false ++ extra)
  /\ (k < 0 ->
      top_rows rows k false = firstn (List.length rows - Z.to_nat (- k)) rows).
Proof.
  intros rows. destruct (select_view_counts_spec s) as (Hd & Hnd & Hin).
  split; [reflexivity|]. split; [exact Hd|]. split; [exact Hnd|].
  split; [exact Hin|]. now apply top_rows_cases.
Qed.

Lemma top_products_by_views_result_witness :
  top_with_ties (select_view_counts demo_site) 1
                (top_rows (select_view_counts demo_site) 1 true).
Proof.
  destruct (top_products_by_views_result 1 demo_site)
    as (_ & _ & _ & _ & H & _).
  apply H; [lia | vm_compute; discriminate].
Defined.

(* ================================================================== *)
(** ** Accounts *)

Lemma find_snoc {A} (f : A -> bool) (l : list A) (x : A) :
  find f (l ++ [x])
  = match find f l with
    | Some y => Some y
    | None => if f x then Some x else None
    end.
Proof.
  destruct (find f l) eqn:E.
  - now apply find_app_some.
  - now rewrite (find_app_none _ _ _ E).
Qed.

Lemma find_free_spec (taken : Z -> bool) (draws : list Z) (d : Z) :
  In d draws -> taken d = false ->
  exists u, find (fun u => negb (taken u)) draws = Some u
            /\ taken u = false /\ In u draws.
Proof.
  intros Hin Hd.
  destruct (find (fun u => negb (taken u)) draws) as [u|] eqn:E.
  - exists u. apply find_some in E. destruct E as [Hu Hf].
    apply negb_true_iff in Hf. auto.
  - exfalso. apply (find_none _ _ E) in Hin. now rewrite Hd in Hin.
Qed.

Lemma pick_uid_eq (draws : list Z) (c : TxConn Site) :
  pick_uid draws c
  = (Return (find (fun u => negb (uid_exists u (current c))) draws), c).
Proof.
  induction draws as [|u rest IH]; simpl; [reflexivity|].
  unfold tx_bind, tx_fetch. simpl.
  destruct (uid_exists u (current c)); simpl; [exact IH | reflexivity].
Qed.

Lemma generate_uid_unique_eq (draws : list Z) (s : Site) :
  generate_uid_unique draws s = find (fun u => negb (uid_exists u s)) draws.
Proof.
  unfold generate_uid_unique, tx_connect. rewrite pick_uid_eq. simpl.
  now destruct (find _ draws).
Qed.

Lemma generate_uid_loop_eq (n : nat) (draws : list Z) (c : TxConn Site) :
  exists r,
    generate_uid_loop n draws c = (Return r, c)
    /\ match r with
       | Found cand =>
           find (fun u => negb (uid_exists u (current c))) draws = Some cand
       | Exhausted rest =>
           find (fun u => negb (uid_exists u (current c))) draws
           = find (fun u => negb (uid_exists u (current c))) rest
       | StillDrawing =>
           find (fun u => negb (uid_exists u (current c))) draws = None
       end.
Proof.
  revert draws. induction n as [|n IH]; intros draws; simpl.
  - exists (Exhausted draws). split; reflexivity.
  - destruct draws as [|cand rest]; simpl.
    + exists StillDrawing. split; reflexivity.
    + unfold tx_bind, tx_fetch. simpl.
      destruct (uid_exists cand (current c)) eqn:E; simpl.
      * apply IH.
      * exists (Found cand). split; reflexivity.
Qed.

Lemma generate_uid_eq (name email : text) (draws : list Z) (s : Site) :
  generate_uid name email draws s = find (fun u => negb (uid_exists u s)) draws.
Proof.
  unfold generate_uid, tx_connect.
  destruct (generate_uid_loop_eq (100 * 100) draws (mkTxConn s s)) as (r & E & Hr).
  rewrite E. clear E. cbn [current persisted] in *. destruct r as [cand|rest|].
  - now rewrite Hr.
  - now rewrite generate_uid_unique_eq, Hr.
  - now rewrite Hr.
Qed.

Lemma register_customer_eq (draws : list Z) (name email pwd : text) (s : Site) :
  register_customer draws name email pwd s
  = match find (fun u => negb (uid_exists u s)) draws with
    | None => None
    | Some u =>
        Some ((u, u),
              mkSite (users s ++ [mkUser u pwd customer_role])
                     (customers s ++ [mkCustomer u name email])
                     (sessions s) (viewedProduct s))
    end.
Proof.
  unfold register_customer. rewrite generate_uid_unique_eq.
  now destruct (find _ draws).
Qed.

Lemma uid_exists_find (u : Z) (s : Site) :
  uid_exists u s = false <-> find (fun x => uid x =? u) (users s) = None.
Proof.
  unfold uid_exists. induction (users s) as [|x l IH]; simpl; [tauto|].
  destruct (uid x =? u); simpl; [split; discriminate | exact IH].
Qed.

Lemma find_weaker_none {A} (f g : A -> bool) (l : list A) :
  (forall x, g x = true -> f x = true) -> find f l = None -> find g l = None.
Proof.
  intros H. induction l as [|x l IH]; simpl; [reflexivity|].
  destruct (f x) eqn:Ef; [discriminate|]. intros Hn.
  destruct (g x) eqn:Eg; [|now apply IH].
  apply H in Eg. congruence.
Qed.

(** X18.  Both uid generators return the first draw that is no uid yet, so a uid
    that is free; [generate_uid] uses neither [name] nor [email].  One free
    draw is enough for a result. *)
Theorem generate_uid_fresh (name email : text) (draws : list Z) (s : Site)
    (d : Z) :
  In d draws -> uid_exists d s = false ->
  exists u,
    generate_uid name email draws s = Some u
    /\ generate_uid_unique draws s = Some u
    /\ uid_exists u s = false /\ In u draws
    /\ exists before after,
         draws = before ++ u :: after
         /\ forall b, In b before -> uid_exists b s = true.
Proof.
  intros Hin Hd.
  destruct (find_free_spec (fun u => uid_exists u s) draws d Hin Hd)
    as (u & E & Hu & Hiu).
  exists u. rewrite generate_uid_eq, generate_uid_unique_eq.
  repeat (split; [assumption|]).
  clear Hin Hd Hiu d. revert E. induction draws as [|x rest IH]; simpl; [discriminate|].
  destruct (uid_exists x s) eqn:Ex; simpl.
  - intros E. destruct (IH E) as (before & after & -> & Hb).
    exists (x :: before), after. split; [reflexivity|].
    intros b [<-|Hb']; [assumption | now apply Hb].
  - intros E. inversion E; subst. exists [], rest. split; [reflexivity|].
    intros b [].
Qed.

Lemma generate_uid_fresh_witness :
  generate_uid (str "Bob") (str "bob@example.com") [1001; 1002; 1003] demo_site
  = Some 1003.
Proof.
  destruct (generate_uid_fresh (str "Bob") (str "bob@example.com")
              [1001; 1002; 1003] demo_site 1003)
    as (u & E & _ & _ & _ & _); [simpl; auto | reflexivity |].
  rewrite E. vm_compute in E. exact (eq_sym E).
Defined.

(** X19.  Registration, given one draw that is no uid yet, on a site whose
    customers all are users: the new uid is free before, and is the cid too;
    afterwards [login] with the password returns the new user with the role
    customer, and with any other password nothing; [get_user],
    [get_user_role] and [get_customer] return the new rows; the email is no
    longer available; every other uid logs in and looks up as before; the
    sessions and views are untouched.  No step looks at whether the email was
    available. *)
Theorem register_customer_round_trip (draws : list Z) (name email pw : text)
    (s : Site) (d : Z) :
  customers_are_users s -> In d draws -> uid_exists d s = false ->
  exists u s',
    register_customer draws name email pw s = Some ((u, u), s')
    /\ uid_exists u s = false /\ In u draws
    /\ login u pw s' = (Return (Some (mkUser u pw customer_role)), s')
    /\ (forall pw', pw' <> pw -> login u pw' s' = (Return None, s'))
    /\ get_user u s' = (Return (Some (mkUser u pw customer_role)), s')
    /\ get_user_role u s' = (Return (Some customer_role), s')
    /\ get_customer u s' = (Return (Some (mkCustomer u name email)), s')
    /\ email_available email s' = (Return false, s')
    /\ (forall u' pw', u' <> u ->
          fst (login u' pw' s') = fst (login u' pw' s)
          /\ fst (get_user u' s') = fst (get_user u' s)
          /\ fst (get_customer u' s') = fst (get_customer u' s))
    /\ customers_are_users s'
    /\ sessions s' = sessions s /\ viewedProduct s' = viewedProduct s.
Proof.
  intros Hcu Hin Hd.
  destruct (find_free_spec (fun u => uid_exists u s) draws d Hin Hd)
    as (u & E & Hu & Hiu).
  rewrite register_customer_eq, E.
  eexists u, _. split; [reflexivity|].
  split; [assumption|]. split; [assumption|].
  assert (Hnone : find (fun x => uid x =? u) (users s) = None)
    by now apply uid_exists_find.
  assert (Hcust : find (fun c => cid c =? u) (customers s) = None).
  { destruct (find (fun c => cid c =? u) (customers s)) as [c|] eqn:Ec;
      [|reflexivity].
    apply find_some in Ec. destruct Ec as [Hc Hcid]. apply Z.eqb_eq in Hcid.
    apply Hcu in Hc. congruence. }
  assert (Hex : forall u', uid_exists u'
                  (mkSite (users s ++ [mkUser u pw customer_role])
                          (customers s ++ [mkCustomer u name email])
                          (sessions s) (viewedProduct s))
                = uid_exists u' s || (u =? u')).
  { intros u'. unfold uid_exists. simpl. rewrite existsb_app. simpl.
    now rewrite orb_false_r. }
  split.
  { unfold login, tx_connect, tx_bind, tx_fetch, tx_ret, select_login. simpl.
    rewrite find_snoc.
    rewrite (find_weaker_none (fun x => uid x =? u) _ _) by
      (first [exact Hnone | intros x Hx; apply andb_true_iff in Hx; apply Hx]).
    simpl. now rewrite Z.eqb_refl, text_eqb_refl. }
  split.
  { intros pw' Hpw.
    unfold login, tx_connect, tx_bind, tx_fetch, tx_ret, select_login. simpl.
    rewrite find_snoc.
    rewrite (find_weaker_none (fun x => uid x =? u) _ _) by
      (first [exact Hnone | intros x Hx; apply andb_true_iff in Hx; apply Hx]).
    simpl. rewrite Z.eqb_refl. simpl.
    destruct (text_eqb pw pw') eqn:Et; [|reflexivity].
    apply text_eqb_eq in Et. congruence. }
  split.
  { unfold get_user, tx_connect, tx_bind, tx_fetch, tx_ret, select_user. simpl.
    rewrite find_snoc, Hnone. simpl. now rewrite Z.eqb_refl. }
  split.
  { unfold get_user_role, tx_connect, tx_bind, tx_fetch, tx_ret, select_user.
    simpl. rewrite find_snoc, Hnone. simpl. now rewrite Z.eqb_refl. }
  split.
  { unfold get_customer, tx_connect, tx_bind, tx_fetch, tx_ret,
      select_customer_of. cbn [current persisted fst snd].
    rewrite Hex, Z.eqb_refl, orb_true_r. cbn [customers].
    rewrite find_snoc, Hcust. simpl. now rewrite Z.eqb_refl. }
  split.
  { unfold email_available, tx_connect, tx_bind, tx_fetch, tx_ret. simpl.
    rewrite find_snoc.
    match goal with
    | |- context [find ?f (customers s)] => destruct (find f (customers s))
    end; [reflexivity|].
    simpl. now rewrite text_eqb_refl. }
  split.
  { intros u' pw' Hne.
    assert (Hneq : (u =? u') = false) by (apply Z.eqb_neq; congruence).
    split; [|split].
    - unfold login, tx_connect, tx_bind, tx_fetch, tx_ret, select_login. simpl.
      rewrite find_snoc. simpl. rewrite Hneq. simpl.
      match goal with
      | |- context [find ?f (users s)] => destruct (find f (users s))
      end; reflexivity.
    - unfold get_user, tx_connect, tx_bind, tx_fetch, tx_ret, select_user. simpl.
      rewrite find_snoc. simpl. rewrite Hneq.
      match goal with
      | |- context [find ?f (users s)] => destruct (find f (users s))
      end; reflexivity.
    - unfold get_customer, tx_connect, tx_bind, tx_fetch, tx_ret,
        select_customer_of. cbn [current persisted fst snd].
      rewrite Hex, Hneq, orb_false_r. cbn [customers].
      rewrite find_snoc. simpl. rewrite Hneq.
      destruct (uid_exists u' s); [|reflexivity].
      match goal with
      | |- context [find ?f (customers s)] => now destruct (find f (customers s))
      end. }
  split.
  { intros c Hc. rewrite Hex. simpl in Hc. apply in_app_or in Hc.
    destruct Hc as [Hc|[<-|[]]].
    - now rewrite (Hcu c Hc).
    - simpl. rewrite Z.eqb_refl. apply orb_true_r. }
  split; reflexivity.
Qed.

Lemma register_customer_round_trip_witness :
  exists u s',
    register_customer [1001; 2345] (str "Bob") (str "bob@example.com")
                      (str "secret") demo_site = Some ((u, u), s')
    /\ login u (str "secret") s'
       = (Return (Some (mkUser u (str "secret") customer_role)), s').
Proof.
  destruct (register_customer_round_trip [1001; 2345] (str "Bob")
              (str "bob@example.com") (str "secret") demo_site 2345)
    as (u & s' & E & _ & _ & Hl & _).
  - intros c [<-|[]]. reflexivity.
  - simpl; auto.
  - reflexivity.
  - exists u, s'. split; assumption.
Defined.

(* ================================================================== *)
(** ** Sessions and views *)

Lemma pick_session_no_eq (c : Z) (draws : list Z) (conn : TxConn Site) :
  pick_session_no c draws conn
  = (Return (find (fun n => negb (session_exists c n (current conn))) draws),
     conn).
Proof.
  induction draws as [|n rest IH]; simpl; [reflexivity|].
  unfold tx_bind, tx_fetch. simpl.
  destruct (session_exists c n (current conn)); simpl; [exact IH | reflexivity].
Qed.

Lemma start_session_eq (draws : list Z) (c start : Z) (s : Site) :
  start_session draws c start s
  = match find (fun n => negb (session_exists c n s)) draws with
    | None => None
    | Some n =>
        Some (n, mkSite (users s) (customers s)
                        (sessions s ++ [mkSession c n start None])
                        (viewedProduct s))
    end.
Proof.
  unfold start_session, tx_connect, tx_bind. rewrite pick_session_no_eq.
  cbn [current]. now destruct (find _ draws).
Qed.

Lemma end_session_eq (c n t : Z) (s : Site) :
  end_session c n t s
  = (Return tt,
     mkSite (users s) (customers s) (map (close_session c n t) (sessions s))
            (viewedProduct s)).
Proof. reflexivity. Qed.

Lemma close_session_pair (c n t : Z) (x : Session) :
  (session_cid (close_session c n t x) =? c)
  && (sessionNo (close_session c n t x) =? n)
  = (session_cid x =? c) && (sessionNo x =? n).
Proof.
  unfold close_session.
  now destruct ((session_cid x =? c) && (sessionNo x =? n)) eqn:E.
Qed.

Lemma close_session_absent (c n t : Z) (l : list Session) :
  existsb (fun x => (session_cid x =? c) && (sessionNo x =? n)) l = false ->
  map (close_session c n t) l = l.
Proof.
  induction l as [|x l IH]; simpl; [reflexivity|].
  intros H. apply orb_false_iff in H. destruct H as [Hx Hl].
  unfold close_session at 1. rewrite Hx. now rewrite IH.
Qed.

Lemma filter_absent {A} (f : A -> bool) (l : list A) :
  existsb f l = false -> filter f l = [].
Proof.
  induction l as [|x l IH]; simpl; [reflexivity|].
  intros H. apply orb_false_iff in H. destruct H as [-> Hl]. now apply IH.
Qed.

Lemma start_then_end_session_parts (draws : list Z) (c start : Z) (s : Site)
    (d : Z) :
  In d draws -> session_exists c d s = false ->
  exists n,
    start_session draws c start s
    = Some (n, mkSite (users s) (customers s)
                      (sessions s ++ [mkSession c n start None])
                      (viewedProduct s))
    /\ session_exists c n s = false
    /\ forall t,
         end_session c n t
           (mkSite (users s) (customers s)
                   (sessions s ++ [mkSession c n start None])
                   (viewedProduct s))
         = (Return tt,
            mkSite (users s) (customers s)
                   (sessions s ++ [mkSession c n start (Some t)])
                   (viewedProduct s)).
Proof.
  intros Hin Hd.
  destruct (find_free_spec (fun n => session_exists c n s) draws d Hin Hd)
    as (n & E & Hn & Hin').
  rewrite start_session_eq, E. exists n. split; [reflexivity|].
  split; [assumption|].
  intros t. rewrite end_session_eq. cbn [users customers sessions viewedProduct].
  rewrite map_app, (close_session_absent _ _ _ _ Hn). simpl.
  unfold close_session. simpl. now rewrite !Z.eqb_refl.
Qed.

(** X20.  Starting a session, given one draw that is no session number of the
    customer yet: the number returned is free for the customer before; the
    session is appended open, so it is the only session of its pair; all
    other rows stay.  Ending that session then stamps its end time and
    changes nothing else. *)
Theorem start_then_end_session (draws : list Z) (c start : Z) (s : Site)
    (d : Z) :
  In d draws -> session_exists c d s = false ->
  exists n s',
    start_session draws c start s = Some (n, s')
    /\ session_exists c n s = false /\ In n draws
    /\ sessions s' = sessions s ++ [mkSession c n start None]
    /\ sessions_of c n s' = [mkSession c n start None]
    /\ users s' = users s /\ customers s' = customers s
    /\ viewedProduct s' = viewedProduct s
    /\ forall t,
         end_session c n t s'
         = (Return tt,
            mkSite (users s) (customers s)
                   (sessions s ++ [mkSession c n start (Some t)])
                   (viewedProduct s)).
Proof.
  intros Hin Hd.
  destruct (find_free_spec (fun n => session_exists c n s) draws d Hin Hd)
    as (n & E & Hn & Hin').
  rewrite start_session_eq, E. eexists n, _. split; [reflexivity|].
  split; [assumption|]. split; [assumption|]. split; [reflexivity|].
  split.
  { unfold sessions_of. cbn [sessions]. rewrite filter_app.
    rewrite (filter_absent _ _ Hn). simpl. now rewrite !Z.eqb_refl. }
  do 3 (split; [reflexivity|]).
  intros t. rewrite end_session_eq. cbn [users customers sessions viewedProduct].
  rewrite map_app, (close_session_absent _ _ _ _ Hn). simpl.
  unfold close_session. simpl. now rewrite !Z.eqb_refl.
Qed.

Lemma start_then_end_session_witness :
  exists n s',
    start_session [5000; 5001] 1001 30 demo_site = Some (n, s')
    /\ sessions_of 1001 n s' = [mkSession 1001 n 30 None].
Proof.
  destruct (start_then_end_session [5000; 5001] 1001 30 demo_site 5001)
    as (n & s' & E & _ & _ & _ & Hof & _); [simpl; auto | reflexivity |].
  exists n, s'. split; assumption.
Defined.

(** X21.  [end_session] never raises.  Every session of the pair gets the end time,
    also one that was closed before; the sessions of other pairs, and their
    order, stay; with no session of the pair nothing changes.  A later call
    overrides an earlier one. *)
Theorem end_session_effect (c n t : Z) (s : Site) :
  let s' := snd (end_session c n t s) in
  fst (end_session c n t s) = Return tt
  /\ sessions_of c n s'
     = map (fun x => mkSession c n (start_time x) (Some t)) (sessions_of c n s)
  /\ filter (fun x => negb ((session_cid x =? c) && (sessionNo x =? n)))
            (sessions s')
     = filter (fun x => negb ((session_cid x =? c) && (sessionNo x =? n)))
              (sessions s)
  /\ map start_time (sessions s') = map start_time (sessions s)
  /\ (session_exists c n s = false -> s' = s)
  /\ (forall t2, end_session c n t2 s' = end_session c n t2 s)
  /\ users s' = users s /\ customers s' = customers s
  /\ viewedProduct s' = viewedProduct s.
Proof.
  intros s'. subst s'. rewrite end_session_eq. cbn [fst snd].
  split; [reflexivity|].
  unfold sessions_of, session_exists.
  cbn [users customers sessions viewedProduct].
  split; [|split; [|split; [|split; [|split]]]].
  - induction (sessions s) as [|x l IH]; simpl; [reflexivity|].
    rewrite close_session_pair.
    destruct ((session_cid x =? c) && (sessionNo x =? n)) eqn:Ex; simpl.
    + rewrite IH. f_equal. unfold close_session. rewrite Ex.
      apply andb_true_iff in Ex. destruct Ex as [E1 E2].
      apply Z.eqb_eq in E1. apply Z.eqb_eq in E2. now rewrite E1, E2.
    + exact IH.
  - induction (sessions s) as [|x l IH]; simpl; [reflexivity|].
    rewrite close_session_pair.
    destruct ((session_cid x =? c) && (sessionNo x =? n)) eqn:Ex; simpl.
    + exact IH.
    + rewrite IH. f_equal. unfold close_session. now rewrite Ex.
  - rewrite map_map. apply map_ext. intros x. unfold close_session.
    now destruct ((session_cid x =? c) && (sessionNo x =? n)).
  - intros H. rewrite (close_session_absent _ _ _ _ H). now destruct s.
  - intros t2. rewrite !end_session_eq.
    cbn [users customers sessions viewedProduct]. do 2 f_equal.
    rewrite map_map. apply map_ext. intros x. unfold close_session.
    destruct ((session_cid x =? c) && (sessionNo x =? n)) eqn:Ex; simpl;
      now rewrite Ex.
  - repeat split.
Qed.

(** X22.  [GlobalState] of a logged-in customer, given one draw that is no session
    number of the customer yet: [start_session] records the number it
    returns, whatever number was recorded before, and appends the open
    session starting at [when], or now; [end_session] then closes that
    session and forgets uid, role and session number, after which ending
    again changes nothing and starting answers [None] without touching the
    tables. *)
Theorem state_session_round_trip (draws : list Z) (now : Z) (when : option Z)
    (g : GlobalState) (s : Site) (u d : Z) :
  state_uid g = Some u -> is_customer (state_role g) = true ->
  In d draws -> session_exists u d s = false ->
  exists n s',
    state_start_session draws now when g s
    = Some (mkGlobalState (Some u) (state_role g) (Some n), Some n, s')
    /\ session_exists u n s = false
    /\ sessions s' = sessions s ++ [mkSession u n (or_current when now) None]
    /\ forall now2 when2 draws2,
         let g' := mkGlobalState (Some u) (state_role g) (Some n) in
         let out := state_end_session now2 when2 g' s' in
         fst out = mkGlobalState None None None
         /\ sessions (snd out)
            = sessions s
              ++ [mkSession u n (or_current when now)
                            (Some (or_current when2 now2))]
         /\ state_end_session now2 when2 (fst out) (snd out) = out
         /\ state_start_session draws2 now2 when2 (fst out) (snd out)
            = Some (fst out, None, snd out).
Proof.
  intros Hu Hc Hin Hd.
  destruct (start_then_end_session_parts draws u (or_current when now) s d Hin Hd)
    as (n & E & Hn & Hend).
  unfold state_start_session. rewrite Hu, Hc, E.
  eexists n, _. split; [reflexivity|]. split; [assumption|].
  split; [reflexivity|].
  intros now2 when2 draws2. cbv zeta.
  assert (Hout : state_end_session now2 when2
                   (mkGlobalState (Some u) (state_role g) (Some n))
                   (mkSite (users s) (customers s)
                      (sessions s ++ [mkSession u n (or_current when now) None])
                      (viewedProduct s))
                 = (mkGlobalState None None None,
                    mkSite (users s) (customers s)
                      (sessions s ++ [mkSession u n (or_current when now)
                                        (Some (or_current when2 now2))])
                      (viewedProduct s))).
  { unfold state_end_session. cbn [state_uid state_role state_session_no].
    now rewrite Hc, Hend. }
  rewrite Hout. cbn [fst snd sessions].
  repeat split.
Qed.

Lemma state_session_round_trip_witness :
  exists n s',
    state_start_session [5000; 5001] 30 None
      (mkGlobalState (Some 1001) (Some (str "customer")) None) demo_site
    = Some (mkGlobalState (Some 1001) (Some (str "customer")) (Some n),
            Some n, s').
Proof.
  destruct (state_session_round_trip [5000; 5001] 30 None
              (mkGlobalState (Some 1001) (Some (str "customer")) None)
              demo_site 1001 5001)
    as (n & s' & E & _); [reflexivity | reflexivity | simpl; auto | reflexivity |].
  exists n, s'. exact E.
Defined.

(** X23.  Without a uid, or with a role that is not customer, [GlobalState] starts
    and ends no session: the state and the tables stay, and [start_session]
    answers [None], whatever the draws.  A customer without a recorded
    session number is not logged out by [end_session] either. *)
Theorem state_session_guards (draws : list Z) (now : Z) (when : option Z)
    (g : GlobalState) (s : Site) :
  (state_uid g = None \/ is_customer (state_role g) = false ->
   state_start_session draws now when g s = Some (g, None, s)
   /\ state_end_session now when g s = (g, s))
  /\ (state_session_no g = None -> state_end_session now when g s = (g, s)).
Proof.
  unfold state_start_session, state_end_session. split.
  - intros [H|H]; rewrite H.
    + split; reflexivity.
    + destruct (state_uid g), (state_session_no g); split; reflexivity.
  - intros ->. now destruct (state_uid g).
Qed.

Lemma state_session_guards_witness :
  state_start_session [5000] 30 None
    (mkGlobalState (Some 1002) (Some (str "sales")) None) demo_site
  = Some (mkGlobalState (Some 1002) (Some (str "sales")) None, None, demo_site).
Proof.
  apply (state_session_guards [5000] 30 None
           (mkGlobalState (Some 1002) (Some (str "sales")) None) demo_site).
  right. reflexivity.
Defined.

(* ================================================================== *)
(** ** Views *)

(** X24.  [record_view] never raises and adds one view: the view count of the
    product goes up by one and the product is in the ranking with that
    count, the other products keep their counts and their rows, and the
    other tables stay.  Neither the customer nor the session nor the product
    is looked up. *)
Theorem record_view_counts (c n p t : Z) (s : Site) :
  let s' := snd (record_view c n p t s) in
  fst (record_view c n p t s) = Return tt
  /\ viewedProduct s' = viewedProduct s ++ [mkViewedProduct c n t p]
  /\ views_of p s' = views_of p s + 1
  /\ (forall p', p' <> p -> views_of p' s' = views_of p' s)
  /\ In (p, views_of p s + 1) (select_view_counts s')
  /\ (forall p' c', p' <> p ->
        (In (p', c') (select_view_counts s')
         <-> In (p', c') (select_view_counts s)))
  /\ users s' = users s /\ customers s' = customers s
  /\ sessions s' = sessions s.
Proof.
  intros s'.
  assert (Es : s' = mkSite (users s) (customers s) (sessions s)
                      (viewedProduct s ++ [mkViewedProduct c n t p]))
    by reflexivity.
  split; [reflexivity|]. split; [now rewrite Es|].
  assert (Hsame : views_of p s' = views_of p s + 1).
  { rewrite Es. unfold views_of. cbn [viewedProduct].
    rewrite filter_app, length_app. simpl. rewrite Z.eqb_refl. simpl. lia. }
  assert (Hother : forall p', p' <> p -> views_of p' s' = views_of p' s).
  { intros p' Hne. rewrite Es. unfold views_of. cbn [viewedProduct].
    rewrite filter_app, length_app. simpl.
    destruct (Z.eqb_spec p p'); [congruence|]. simpl. lia. }
  split; [exact Hsame|]. split; [exact Hother|].
  destruct (select_view_counts_spec s') as (_ & _ & Hin').
  destruct (select_view_counts_spec s) as (_ & _ & Hin).
  split; [|split].
  - apply Hin'. split; [|now rewrite Hsame].
    rewrite Es. cbn [viewedProduct]. rewrite map_app. apply in_or_app.
    right. now left.
  - intros p' c' Hne. rewrite Hin', Hin, (Hother p' Hne).
    rewrite Es. cbn [viewedProduct]. rewrite map_app, in_app_iff. simpl.
    intuition congruence.
  - now rewrite Es.
Qed.

(* ================================================================== *)
(** ** The Markdown table *)

Lemma join_cons (sep x : text) (y : text) (rest : list text) :
  join sep (x :: y :: rest) = x ++ sep ++ join sep (y :: rest).
Proof. reflexivity. Qed.

Lemma text_lines_app (l : text) (r : text) :
  no_newline l ->
  text_lines (l ++ newline :: r) = l :: text_lines r.
Proof.
  unfold no_newline. induction l as [|c l IH]; intros H; simpl.
  - reflexivity.
  - destruct (Ascii.eqb_spec c newline) as [->|Hc]; [exfalso; apply H; now left|].
    rewrite IH; [reflexivity|]. intros Hin. apply H. now right.
Qed.

Lemma text_lines_single (l : text) :
  no_newline l -> text_lines l = [l].
Proof.
  unfold no_newline. induction l as [|c l IH]; intros H; simpl; [reflexivity|].
  destruct (Ascii.eqb_spec c newline) as [->|Hc]; [exfalso; apply H; now left|].
  rewrite IH; [reflexivity|]. intros Hin. apply H. now right.
Qed.

(** Splitting the join of lines without line feed gives the lines back. *)
Lemma text_lines_join (ls : list text) :
  ls <> [] -> Forall no_newline ls -> text_lines (join [newline] ls) = ls.
Proof.
  induction ls as [|l ls IH]; intros Hne Hall; [contradiction|].
  inversion Hall as [|? ? Hl Hls]; subst.
  destruct ls as [|l' ls'].
  - simpl. now apply text_lines_single.
  - rewrite join_cons. cbn [app]. rewrite text_lines_app by assumption.
    f_equal. apply IH; [discriminate | assumption].
Qed.

Lemma no_newline_app (a b : text) :
  no_newline a -> no_newline b -> no_newline (a ++ b).
Proof.
  unfold no_newline. intros Ha Hb Hin. apply in_app_or in Hin. tauto.
Qed.

Lemma no_newline_join (sep : text) (cells : list text) :
  no_newline sep -> Forall no_newline cells -> no_newline (join sep cells).
Proof.
  intros Hs. induction 1 as [|x l Hx Hl IH]; [intros []|].
  destruct l as [|y l']; [exact Hx|].
  rewrite join_cons. apply no_newline_app; [assumption|].
  now apply no_newline_app.
Qed.

Lemma no_newline_table_line (cells : list text) :
  Forall no_newline cells -> no_newline (table_line cells).
Proof.
  intros H. unfold table_line.
  assert (Hlit : forall l, forallb (fun c => negb (Ascii.eqb c newline)) l = true ->
                           no_newline l).
  { intros l Hl Hin. rewrite forallb_forall in Hl. apply Hl in Hin.
    now rewrite Ascii.eqb_refl in Hin. }
  apply no_newline_app; [now apply Hlit|].
  apply no_newline_app; [|now apply Hlit].
  apply no_newline_join; [now apply Hlit | assumption].
Qed.

Lemma no_newline_align (a : align) : no_newline (align_map a).
Proof.
  intros Hin. destruct a; simpl in Hin;
    repeat (destruct Hin as [Hin|Hin]; [discriminate Hin|]); exact Hin.
Qed.

Lemma generate_markdown_table_eq (headers : option (list text))
    (first : list text) (rest : list (list text)) (aligns : option (list align)) :
  generate_markdown_table headers (first :: rest) aligns
  = let h := fst (headers_and_rows headers first rest) in
    let r := snd (headers_and_rows headers first rest) in
    match aligns with
    | None =>
        Return (join [newline]
                  (table_line h
                   :: table_line (map align_map (repeat AlignC (List.length h)))
                   :: map table_line r))
    | Some a =>
        if (List.length a =? List.length h)%nat
        then Return (join [newline]
                       (table_line h :: table_line (map align_map a)
                        :: map table_line r))
        else Raise (ValueError "Length of aligns must match number of headers.")
    end.
Proof.
  unfold generate_markdown_table.
  destruct (headers_and_rows headers first rest) as [h r]. cbn [fst snd].
  destruct aligns as [a|]; [|reflexivity].
  now destruct (List.length a =? List.length h)%nat.
Qed.

(** X25.  [generate_markdown_table] on its edges.  Without rows the answer is the
    empty text, whatever the headers and the alignments, even alignments of
    the wrong length.  Empty headers count as missing headers, and missing
    headers are taken from the first row; but headers with no row give the
    empty text where the same cells as the only row give a table.  With rows,
    the call raises exactly when alignments are given and their number is not
    the number of header cells; the width of the data rows is never checked.
    Leaving the alignments out centres every column. *)
Theorem generate_markdown_table_edges :
  (forall headers aligns, generate_markdown_table headers [] aligns = Return [])
  /\ (forall rows aligns,
        generate_markdown_table (Some []) rows aligns
        = generate_markdown_table None rows aligns)
  /\ (forall h rows aligns, h <> [] -> rows <> [] ->
        generate_markdown_table None (h :: rows) aligns
        = generate_markdown_table (Some h) rows aligns)
  /\ (forall h,
        generate_markdown_table (Some h) [] None = Return []
        /\ generate_markdown_table None [h] None
           = Return (table_line h ++ [newline]
                     ++ table_line (map align_map (repeat AlignC (List.length h)))))
  /\ (forall headers first rest a,
        (exists e, generate_markdown_table headers (first :: rest) (Some a)
                   = Raise e)
        <-> List.length a
            <> List.length (fst (headers_and_rows headers first rest)))
  /\ (forall headers first rest,
        generate_markdown_table headers (first :: rest) None
        = generate_markdown_table headers (first :: rest)
            (Some (repeat AlignC
                     (List.length (fst (headers_and_rows headers first rest)))))).
Proof.
  split; [reflexivity|]. split; [intros [|first rest] aligns; reflexivity|].
  split.
  { intros h [|first rest] aligns Hh Hr; [contradiction|].
    rewrite !generate_markdown_table_eq.
    destruct h as [|c h']; [contradiction|]. reflexivity. }
  split; [intros h; split; reflexivity|].
  split.
  { intros headers first rest a. rewrite generate_markdown_table_eq. cbv zeta.
    destruct (Nat.eqb_spec (List.length a)
                (List.length (fst (headers_and_rows headers first rest))))
      as [E|E].
    - split; [intros [e He]; discriminate He | intros H; contradiction].
    - split; [intros _; exact E | intros _; eexists; reflexivity]. }
  intros headers first rest. rewrite !generate_markdown_table_eq. cbv zeta.
  now rewrite repeat_length, Nat.eqb_refl.
Qed.

(** X26.  The table of cells without line feed, with rows and with alignments of
    the number of the header cells (or none): cut at its line feeds, it
    is the header line, the alignment line and one line per data row, in
    order; so it has two lines more than data rows. *)
Theorem generate_markdown_table_lines (headers : option (list text))
    (first : list text) (rest : list (list text)) (aligns : option (list align)) :
  let h := fst (headers_and_rows headers first rest) in
  let r := snd (headers_and_rows headers first rest) in
  let a := match aligns with
           | Some a => a
           | None => repeat AlignC (List.length h)
           end in
  Forall no_newline h -> Forall (Forall no_newline) r ->
  List.length a = List.length h ->
  exists t,
    generate_markdown_table headers (first :: rest) aligns = Return t
    /\ text_lines t
       = table_line h :: table_line (map align_map a) :: map table_line r
    /\ List.length (text_lines t) = (2 + List.length r)%nat.
Proof.
  intros h r a Hh Hr Ha. rewrite generate_markdown_table_eq. cbv zeta.
  fold h r.
  assert (Hlines : text_lines
                     (join [newline]
                        (table_line h :: table_line (map align_map a)
                         :: map table_line r))
                   = table_line h :: table_line (map align_map a)
                     :: map table_line r).
  { apply text_lines_join; [discriminate|].
    constructor; [now apply no_newline_table_line|].
    constructor.
    - apply no_newline_table_line. apply Forall_forall. intros x Hx.
      apply in_map_iff in Hx. destruct Hx as (y & <- & _).
      apply no_newline_align.
    - apply Forall_forall. intros x Hx.
      apply in_map_iff in Hx. destruct Hx as (y & <- & Hy).
      apply no_newline_table_line. rewrite Forall_forall in Hr. now apply Hr. }
  assert (Hlen : List.length
                   (text_lines
                      (join [newline]
                         (table_line h :: table_line (map align_map a)
                          :: map table_line r)))
                 = (2 + List.length r)%nat).
  { rewrite Hlines. simpl. now rewrite length_map. }
  destruct aligns as [a'|].
  - subst a. rewrite Ha, Nat.eqb_refl. eexists. split; [reflexivity|].
    split; [exact Hlines | exact Hlen].
  - eexists. split; [reflexivity|].
    split; [exact Hlines | exact Hlen].
Qed.

Lemma generate_markdown_table_lines_witness :
  exists t,
    generate_markdown_table (Some [str "pid"; str "name"])
      [[str "2001"; str "USB-C Cable"]; [str "2002"; str "Mouse"]]
      (Some [AlignR; AlignL]) = Return t
    /\ List.length (text_lines t) = 4%nat.
Proof.
  destruct (generate_markdown_table_lines (Some [str "pid"; str "name"])
              [str "2001"; str "USB-C Cable"] [[str "2002"; str "Mouse"]]
              (Some [AlignR; AlignL]))
    as (t & E & _ & Hlen).
  - repeat constructor; intros H; simpl in H;
      repeat (destruct H as [H|H]; [discriminate H|]); exact H.
  - repeat constructor; intros H; simpl in H;
      repeat (destruct H as [H|H]; [discriminate H|]); exact H.
  - reflexivity.
  - exists t. split; [exact E | exact Hlen].
Defined.
